(** * Convergence polling in the e2e framework

    A shallow embedding of
    [vendor/github.com/openshift/cluster-api-actuator-pkg/pkg/e2e/framework/framework.go]:
    the three lifecycle operations [ScaleSatefulSetDownToZero],
    [ScaleDeploymentDownToZero] and [WaitUntilDeleted], the condition
    closures they hand to [wait.Poll], and the poller itself.

    Go values are rendered as follows.
    - [error] is [option string]: [None] is [nil], [Some msg] is a non-nil
      error whose [Error()] is [msg].
    - [int32] and [time.Duration] are [Z]; [*int32] is [option Z].
    - A callback or a client method is a function on an abstract remote
      state [W] that returns its Go results together with the next state.
    - The object behind the pointer argument of the scale operations is the
      [mem] cell of the store: the caller reads it back after the call.
    - Time is logical: only the poller's sleep advances the clock, and a
      tick's own work takes no time.

    The second half of the file covers the rest of [framework.go] (the
    construction of the framework, its hooks and the image upload), the
    list writer appended to it, and the environment lookup of
    [hack/tools/vendor/github.com/buildkite/interpolate/env.go]. *)

From Stdlib Require Import ZArith List String Ascii Bool Lia.
From Stdlib Require Import Permutation.
From stdpp Require gmap strings.
Import ListNotations.

Local Open Scope string_scope.
Local Open Scope list_scope.
Local Open Scope Z_scope.

(** ** Go prelude *)

Definition error := option string.

Module strings.

(** [strings.Contains s substr]: [substr] occurs in [s]. *)
Fixpoint Contains (s substr : string) : bool :=
  String.prefix substr s ||
  match s with
  | EmptyString => false
  | String _ s' => Contains s' substr
  end.

End strings.

Module time.

Definition Duration := Z.
Definition Nanosecond : Duration := 1.
Definition Second : Duration := 1000000000 * Nanosecond.
Definition Minute : Duration := 60 * Second.

End time.

Module fmt.

(** The [%v] verb applied to an [error]. *)
Definition v (err : error) : string :=
  match err with
  | None => "<nil>"
  | Some msg => msg
  end.

Definition newline : string := String (ascii_of_nat 10) EmptyString.

End fmt.

(** ** State passing *)

Definition St (S A : Type) : Type := S -> A * S.

Definition ret {S A : Type} (a : A) : St S A := fun s => (a, s).

Definition bind {S A B : Type} (c : St S A) (k : A -> St S B) : St S B :=
  fun s => let (a, s') := c s in k a s'.

Declare Scope st_scope.
Delimit Scope st_scope with st.
Notation "x <- c ;; k" := (bind c (fun x => k))
  (at level 61, c at next level, right associativity) : st_scope.
Notation "c ;; k" := (bind c (fun _ => k))
  (at level 61, right associativity) : st_scope.
Local Open Scope st_scope.

(** ** The workload objects of [k8s.io/api/apps/v1beta2]

    Only the fields the framework touches are kept. *)

Module metav1.
Record ObjectMeta := { Name : string; Namespace : string }.
End metav1.

Module StatefulSetSpec.
Record t := { Replicas : option Z }.
End StatefulSetSpec.

Module StatefulSetStatus.
Record t := { CurrentReplicas : Z }.
(** The struct read by Go field name. *)
Definition field (name : string) (st : t) : option Z :=
  if String.eqb name "CurrentReplicas" then Some (CurrentReplicas st)
  else None.
End StatefulSetStatus.

Module StatefulSet.
Record t := {
  ObjectMeta : metav1.ObjectMeta;
  Spec : StatefulSetSpec.t;
  Status : StatefulSetStatus.t
}.
Definition Name (o : t) : string := metav1.Name (ObjectMeta o).
Definition Namespace (o : t) : string := metav1.Namespace (ObjectMeta o).
(** [o.Spec.Replicas = r] *)
Definition set_Spec_Replicas (r : option Z) (o : t) : t :=
  {| ObjectMeta := ObjectMeta o;
     Spec := {| StatefulSetSpec.Replicas := r |};
     Status := Status o |}.
End StatefulSet.

Module DeploymentSpec.
Record t := { Replicas : option Z }.
End DeploymentSpec.

Module DeploymentStatus.
Record t := { AvailableReplicas : Z }.
(** The struct read by Go field name. *)
Definition field (name : string) (st : t) : option Z :=
  if String.eqb name "AvailableReplicas" then Some (AvailableReplicas st)
  else None.
End DeploymentStatus.

Module Deployment.
Record t := {
  ObjectMeta : metav1.ObjectMeta;
  Spec : DeploymentSpec.t;
  Status : DeploymentStatus.t
}.
Definition Name (o : t) : string := metav1.Name (ObjectMeta o).
Definition Namespace (o : t) : string := metav1.Namespace (ObjectMeta o).
(** [o.Spec.Replicas = r] *)
Definition set_Spec_Replicas (r : option Z) (o : t) : t :=
  {| ObjectMeta := ObjectMeta o;
     Spec := {| DeploymentSpec.Replicas := r |};
     Status := Status o |}.
End Deployment.

(** ** Observable events of one run

    Every call that leaves the process and every log line is appended to
    the trace, in program order. *)

Inductive Event :=
| DelFnc (err : error)
| GetFnc (err : error)
| StatefulSetsUpdate (ns : string) (obj : StatefulSet.t) (err : error)
| StatefulSetsGet (ns name : string) (err : error)
| DeploymentsUpdate (ns : string) (obj : Deployment.t) (err : error)
| DeploymentsGet (ns name : string) (err : error)
| Infof (line : string).

(** A status read of the observe phase. *)
Definition is_read (e : Event) : bool :=
  match e with
  | StatefulSetsGet _ _ _ | DeploymentsGet _ _ _ => true
  | _ => false
  end.

(** The store one tick works on: the pointee of the operation's pointer
    argument, the remote cluster, and the trace. *)
Record Store (Mem W : Type) := mkStore {
  mem : Mem;
  world : W;
  trace : list Event
}.
Arguments mkStore {Mem W}.
Arguments mem {Mem W}.
Arguments world {Mem W}.
Arguments trace {Mem W}.

Section Actions.
Context {Mem W : Type}.

Definition Action (A : Type) : Type := St (Store Mem W) A.

Definition emit (e : Event) : Action unit :=
  fun s => (tt, mkStore (mem s) (world s) (trace s ++ [e])).

(** Run a remote call on the cluster state. *)
Definition call {A : Type} (f : W -> A * W) : Action A :=
  fun s => let (a, w) := f (world s) in (a, mkStore (mem s) w (trace s)).

(** Dereference the pointer argument. *)
Definition load : Action Mem := fun s => (mem s, s).

(** Assign through the pointer argument. *)
Definition modify (g : Mem -> Mem) : Action unit :=
  fun s => (tt, mkStore (g (mem s)) (world s) (trace s)).

End Actions.
Arguments Action : clear implicits.

Module log.
Definition Infof {Mem W : Type} (line : string) : Action Mem W unit :=
  emit (Infof line).
End log.

(** ** The convergence poller *)

(** The poller's clock.  [now] is the current instant; [ticks] is the
    list of instants at which the poller invoked its step, oldest first. *)
Record Timer := mkTimer {
  now : Z;
  ticks : list Z
}.

Definition Machine (S : Type) : Type := (S * Timer)%type.

(** Run one tick's work; the clock is out of its reach. *)
Definition lift {S A : Type} (a : St S A) : St (Machine S) A :=
  fun m => let (x, s') := a (fst m) in (x, (s', snd m)).

Module Poller.

Record PollSpec := { interval : Z; timeout : Z }.

Inductive PollOutcome :=
| Converged
| Pending
| Failed (reason : string).

Inductive PollResult :=
| Success
| TimedOut
| Fatal (err : string).

Section Poll.
Context {S : Type}.
Variable spec : PollSpec.
Variable step : St S PollOutcome.

Definition mark (t : Timer) : Timer :=
  mkTimer (now t) (ticks t ++ [now t]).

Definition sleep (d : Z) (t : Timer) : Timer :=
  mkTimer (now t + d) (ticks t).

(** Modelled from the spec: the loop of the Convergence Poller (section
    4.1), whose code, [wait.Poll] of [k8s.io/apimachinery], is not among
    the sources.  One round invokes [step]; [Converged] and [Failed] end
    the run at once; on [Pending] the poller sleeps to the next tick
    boundary and gives up when the time elapsed since [start] exceeds the
    timeout.  [fuel] only makes the recursion structural: with a positive
    interval and the fuel [Poll] provides, the loop stops on the timeout
    test before the fuel is used up. *)
Fixpoint poll_loop (fuel : nat) (start : Z) (m : Machine S)
  : PollResult * Machine S :=
  let t0 := mark (snd m) in
  let (o, s1) := step (fst m) in
  match o with
  | Converged => (Success, (s1, t0))
  | Failed reason => (Fatal reason, (s1, t0))
  | Pending =>
      let t1 := sleep (interval spec) t0 in
      if timeout spec <? now t1 - start then (TimedOut, (s1, t1))
      else
        match fuel with
        | O => (TimedOut, (s1, t1))
        | Datatypes.S fuel' => poll_loop fuel' start (s1, t1)
        end
  end.

(** Modelled from the spec: [Poll(spec, step)] of section 4.1.  The first
    round runs immediately; the fuel is the number of tick boundaries
    inside the timeout. *)
Definition Poll : St (Machine S) PollResult :=
  fun m => poll_loop (Z.to_nat (timeout spec / interval spec)) (now (snd m)) m.

End Poll.
End Poller.

Export Poller (PollSpec, PollOutcome, PollResult,
               Converged, Pending, Failed, Success, TimedOut, Fatal).

Module wait.

(** Modelled from the spec: how the poller reads the result [(done, err)]
    of a condition closure, the closures being written against
    [wait.Poll], which is not among the sources.  A non-nil error is the
    [Failed] outcome of section 4.1; otherwise [done] tells [Converged]
    from [Pending]. *)
Definition outcome (r : bool * error) : PollOutcome :=
  match r with
  | (_, Some reason) => Failed reason
  | (true, None) => Converged
  | (false, None) => Pending
  end.

(** Modelled from the spec: [wait.Poll(interval, timeout, condition)] is
    the poller of section 4.1 run on the condition closure. *)
Definition Poll {S : Type} (interval timeout : time.Duration)
    (condition : St S (bool * error)) : St (Machine S) PollResult :=
  Poller.Poll {| Poller.interval := interval; Poller.timeout := timeout |}
    (fun s => let (r, s') := condition s in (outcome r, s')).

End wait.

(** ** The framework *)

(** Default timeout for pools *)
Definition PoolTimeout : time.Duration := 60 * time.Second.
(** Default waiting interval for pools *)
Definition PollInterval : time.Duration := 5 * time.Second.
Definition PoolDeletionTimeout : time.Duration := 1 * time.Minute.

(** The part of [kubernetes.Clientset] the framework calls:
    [AppsV1beta2().StatefulSets(ns)] and [AppsV1beta2().Deployments(ns)],
    each with [Update(obj)] and [Get(name, opts)]. *)
Record Clientset (W : Type) := {
  StatefulSets_Update :
    string -> StatefulSet.t -> W -> (StatefulSet.t * error) * W;
  StatefulSets_Get :
    string -> string -> W -> (StatefulSet.t * error) * W;
  Deployments_Update :
    string -> Deployment.t -> W -> (Deployment.t * error) * W;
  Deployments_Get :
    string -> string -> W -> (Deployment.t * error) * W
}.
Arguments StatefulSets_Update {W}.
Arguments StatefulSets_Get {W}.
Arguments Deployments_Update {W}.
Arguments Deployments_Get {W}.

Record Framework (W : Type) := { KubeClient : Clientset W }.
Arguments KubeClient {W}.

(** A [PollResult] stands for the Go [error] an operation returns:
    [Success] is [nil], [TimedOut] is the poller's timeout error, and
    [Fatal msg] is an error a condition closure returned. *)
Definition Proc (Mem W A : Type) : Type := St (Machine (Store Mem W)) A.

Section Framework.
Context {W : Type}.
Variable f : Framework W.

(** *** Client calls, as seen on the trace *)

Definition StatefulSets_Update_call {Mem} (ns : string) (obj : StatefulSet.t)
  : Action Mem W (StatefulSet.t * error) :=
  r <- call (StatefulSets_Update (KubeClient f) ns obj) ;;
  emit (StatefulSetsUpdate ns obj (snd r)) ;;
  ret r.

Definition StatefulSets_Get_call {Mem} (ns name : string)
  : Action Mem W (StatefulSet.t * error) :=
  r <- call (StatefulSets_Get (KubeClient f) ns name) ;;
  emit (StatefulSetsGet ns name (snd r)) ;;
  ret r.

Definition Deployments_Update_call {Mem} (ns : string) (obj : Deployment.t)
  : Action Mem W (Deployment.t * error) :=
  r <- call (Deployments_Update (KubeClient f) ns obj) ;;
  emit (DeploymentsUpdate ns obj (snd r)) ;;
  ret r.

Definition Deployments_Get_call {Mem} (ns name : string)
  : Action Mem W (Deployment.t * error) :=
  r <- call (Deployments_Get (KubeClient f) ns name) ;;
  emit (DeploymentsGet ns name (snd r)) ;;
  ret r.

(** *** [ScaleSatefulSetDownToZero] *)

(** The first closure: submit the update. *)
Definition ScaleSatefulSetDownToZero_func1
  : Action StatefulSet.t W (bool * error) :=
  statefulset <- load ;;
  r <- StatefulSets_Update_call (StatefulSet.Namespace statefulset) statefulset ;;
  let err := snd r in
  log.Infof ("ScaleSatefulSetDownToZero.err: " ++ fmt.v err ++ fmt.newline)%string ;;
  match err with
  | Some msg =>
      if strings.Contains msg "not found" then ret (true, None)
      else ret (false, None)
  | None => ret (true, None)
  end.

(** The second closure: wait until the number of replicas is really zero. *)
Definition ScaleSatefulSetDownToZero_func2
  : Action StatefulSet.t W (bool * error) :=
  statefulset <- load ;;
  r <- StatefulSets_Get_call (StatefulSet.Namespace statefulset)
         (StatefulSet.Name statefulset) ;;
  let (result, err) := r in
  match err with
  | Some msg =>
      if strings.Contains msg "not found" then ret (true, None)
      else ret (false, None)
  | None =>
      if StatefulSetStatus.CurrentReplicas (StatefulSet.Status result) =? 0
      then ret (true, None)
      else ret (false, None)
  end.

Definition ScaleSatefulSetDownToZero : Proc StatefulSet.t W PollResult :=
  let zero : Z := 0 in
  lift (modify (StatefulSet.set_Spec_Replicas (Some zero))) ;;
  err <- wait.Poll PollInterval PoolDeletionTimeout
           ScaleSatefulSetDownToZero_func1 ;;
  match err with
  | Success =>
      wait.Poll PollInterval PoolDeletionTimeout
        ScaleSatefulSetDownToZero_func2
  | _ => ret err
  end.

(** *** [ScaleDeploymentDownToZero] *)

Definition ScaleDeploymentDownToZero_func1
  : Action Deployment.t W (bool * error) :=
  deployment <- load ;;
  r <- Deployments_Update_call (Deployment.Namespace deployment) deployment ;;
  let err := snd r in
  log.Infof ("ScaleDeploymentDownToZero.err: " ++ fmt.v err ++ fmt.newline)%string ;;
  match err with
  | Some msg =>
      if strings.Contains msg "not found" then ret (true, None)
      else ret (false, None)
  | None => ret (true, None)
  end.

Definition ScaleDeploymentDownToZero_func2
  : Action Deployment.t W (bool * error) :=
  deployment <- load ;;
  r <- Deployments_Get_call (Deployment.Namespace deployment)
         (Deployment.Name deployment) ;;
  let (result, err) := r in
  match err with
  | Some msg =>
      if strings.Contains msg "not found" then ret (true, None)
      else ret (false, None)
  | None =>
      if DeploymentStatus.AvailableReplicas (Deployment.Status result) =? 0
      then ret (true, None)
      else ret (false, None)
  end.

Definition ScaleDeploymentDownToZero : Proc Deployment.t W PollResult :=
  let zero : Z := 0 in
  lift (modify (Deployment.set_Spec_Replicas (Some zero))) ;;
  err <- wait.Poll PollInterval PoolDeletionTimeout
           ScaleDeploymentDownToZero_func1 ;;
  match err with
  | Success =>
      wait.Poll PollInterval PoolDeletionTimeout
        ScaleDeploymentDownToZero_func2
  | _ => ret err
  end.

End Framework.

(** *** [WaitUntilDeleted] *)

Section WaitUntilDeleted.
Context {Mem W : Type}.
Variables delFnc getFnc : W -> error * W.

Definition delFnc_call : Action Mem W error :=
  err <- call delFnc ;; emit (DelFnc err) ;; ret err.

Definition getFnc_call : Action Mem W error :=
  err <- call getFnc ;; emit (GetFnc err) ;; ret err.

Definition WaitUntilDeleted_func1 : Action Mem W (bool * error) :=
  err <- delFnc_call ;;
  log.Infof ("del.err: " ++ fmt.v err ++ fmt.newline)%string ;;
  match err with
  | Some msg =>
      if strings.Contains msg "object is being deleted" then ret (false, None)
      else if strings.Contains msg "not found" then ret (true, None)
      else ret (false, None)
  | None =>
      err <- getFnc_call ;;
      log.Infof ("get.err: " ++ fmt.v err ++ fmt.newline)%string ;;
      match err with
      | Some msg =>
          if strings.Contains msg "not found" then ret (true, None)
          else ret (false, None)
      | None => ret (false, None)
      end
  end.

Definition WaitUntilDeleted : Proc Mem W PollResult :=
  wait.Poll PollInterval PoolDeletionTimeout WaitUntilDeleted_func1.

End WaitUntilDeleted.

(** ** Vocabulary of the statements *)

(** The store after [n] invocations of [step]. *)
Fixpoint after {S : Type} (step : St S PollOutcome) (n : nat) (s : S) : S :=
  match n with
  | O => s
  | Datatypes.S n' => after step n' (snd (step s))
  end.

(** The tick instants [t0, t0 + d, ..., t0 + (n-1) d]. *)
Definition boundaries (t0 d : Z) (n : nat) : list Z :=
  map (fun k => t0 + Z.of_nat k * d) (seq 0 n).

(** [s'] is [s] with the pointee untouched and with events appended that
    all satisfy [P] (which may mention the pointee). *)
Definition grows {Mem W : Type} (P : Mem -> Event -> Prop)
    (s s' : Store Mem W) : Prop :=
  mem s' = mem s /\
  exists evs, trace s' = trace s ++ evs /\ Forall (P (mem s)) evs.

(** [err == nil] *)
Definition is_nil (err : error) : bool :=
  match err with
  | None => true
  | Some _ => false
  end.

(** The error is non-nil and its message contains "not found". *)
Definition not_found (err : error) : bool :=
  match err with
  | Some msg => strings.Contains msg "not found"
  | None => false
  end.

(** Every update among the events is an update of [obj] itself. *)
Definition submits_statefulset (obj : StatefulSet.t) (e : Event) : Prop :=
  match e with
  | StatefulSetsUpdate _ o _ => o = obj
  | DeploymentsUpdate _ _ _ => False
  | _ => True
  end.

Definition submits_deployment (obj : Deployment.t) (e : Event) : Prop :=
  match e with
  | DeploymentsUpdate _ o _ => o = obj
  | StatefulSetsUpdate _ _ _ => False
  | _ => True
  end.

(** An update event carries an object whose desired replica count is zero. *)
Definition submits_zero (e : Event) : Prop :=
  match e with
  | StatefulSetsUpdate _ o _ =>
      StatefulSetSpec.Replicas (StatefulSet.Spec o) = Some 0
  | DeploymentsUpdate _ o _ =>
      DeploymentSpec.Replicas (Deployment.Spec o) = Some 0
  | _ => True
  end.

(** The StatefulSet [name] of namespace [ns] does not exist: every update
    of an object of that name in that namespace, and every read of that
    name there, is answered with a not-found error. *)
Definition statefulset_missing {W : Type} (f : Framework W)
    (ns name : string) : Prop :=
  (forall obj w,
     StatefulSet.Name obj = name ->
     not_found (snd (fst (StatefulSets_Update (KubeClient f) ns obj w))) = true)
  /\ (forall w,
        not_found (snd (fst (StatefulSets_Get (KubeClient f) ns name w))) = true).

(** The Deployment [name] of namespace [ns] does not exist. *)
Definition deployment_missing {W : Type} (f : Framework W)
    (ns name : string) : Prop :=
  (forall obj w,
     Deployment.Name obj = name ->
     not_found (snd (fst (Deployments_Update (KubeClient f) ns obj w))) = true)
  /\ (forall w,
        not_found (snd (fst (Deployments_Get (KubeClient f) ns name w))) = true).

(** The store right after the assignment [obj.Spec.Replicas = &zero]. *)
Definition zeroed_statefulset {W : Type} (s : Store StatefulSet.t W)
  : Store StatefulSet.t W :=
  mkStore (StatefulSet.set_Spec_Replicas (Some 0) (mem s)) (world s) (trace s).

Definition zeroed_deployment {W : Type} (s : Store Deployment.t W)
  : Store Deployment.t W :=
  mkStore (Deployment.set_Spec_Replicas (Some 0) (mem s)) (world s) (trace s).

(** ** Scripted collaborators

    The remote state counts the calls made. *)

Definition always {A : Type} (a : A) : nat -> A * nat :=
  fun calls => (a, Datatypes.S calls).

Definition store0 : Store unit nat := mkStore tt 0%nat [].

(** A step that is pending for ever, under one tick per second and three
    seconds of budget. *)
Definition counting : St nat PollOutcome :=
  fun calls => (Pending, Datatypes.S calls).

Definition one_in_three : PollSpec :=
  {| Poller.interval := 1; Poller.timeout := 3 |}.

Definition no_statefulset : StatefulSet.t :=
  {| StatefulSet.ObjectMeta := {| metav1.Name := EmptyString; metav1.Namespace := EmptyString |};
     StatefulSet.Spec := {| StatefulSetSpec.Replicas := None |};
     StatefulSet.Status := {| StatefulSetStatus.CurrentReplicas := 0 |} |}.

Definition no_deployment : Deployment.t :=
  {| Deployment.ObjectMeta := {| metav1.Name := EmptyString; metav1.Namespace := EmptyString |};
     Deployment.Spec := {| DeploymentSpec.Replicas := None |};
     Deployment.Status := {| DeploymentStatus.AvailableReplicas := 0 |} |}.

(** A cluster on which the workload does not exist. *)
Definition gone : Framework nat :=
  {| KubeClient :=
       {| StatefulSets_Update := fun _ obj =>
            always (obj, Some "statefulsets.apps not found");
          StatefulSets_Get := fun _ _ =>
            always (no_statefulset, Some "statefulsets.apps not found");
          Deployments_Update := fun _ obj =>
            always (obj, Some "deployments.apps not found");
          Deployments_Get := fun _ _ =>
            always (no_deployment, Some "deployments.apps not found") |} |}.

(** A cluster that accepts every update and serves the given objects. *)
Definition serving (ss : StatefulSet.t) (dep : Deployment.t) : Framework nat :=
  {| KubeClient :=
       {| StatefulSets_Update := fun _ obj => always (obj, None);
          StatefulSets_Get := fun _ _ => always (ss, None);
          Deployments_Update := fun _ obj => always (obj, None);
          Deployments_Get := fun _ _ => always (dep, None) |} |}.

(** A cluster that rejects every call with an unclassified error. *)
Definition failing : Framework nat :=
  {| KubeClient :=
       {| StatefulSets_Update := fun _ obj =>
            always (obj, Some "connection refused");
          StatefulSets_Get := fun _ _ =>
            always (no_statefulset, Some "connection refused");
          Deployments_Update := fun _ obj =>
            always (obj, Some "connection refused");
          Deployments_Get := fun _ _ =>
            always (no_deployment, Some "connection refused") |} |}.

Definition statefulset_of (replicas current : Z) : StatefulSet.t :=
  {| StatefulSet.ObjectMeta :=
       {| metav1.Name := "db"; metav1.Namespace := "default" |};
     StatefulSet.Spec := {| StatefulSetSpec.Replicas := Some replicas |};
     StatefulSet.Status := {| StatefulSetStatus.CurrentReplicas := current |} |}.

Definition deployment_of (replicas available : Z) : Deployment.t :=
  {| Deployment.ObjectMeta :=
       {| metav1.Name := "web"; metav1.Namespace := "default" |};
     Deployment.Spec := {| DeploymentSpec.Replicas := Some replicas |};
     Deployment.Status :=
       {| DeploymentStatus.AvailableReplicas := available |} |}.

(** A cluster on which only the StatefulSet [default/db] and the
    Deployment [default/web] do not exist; every other workload is there,
    with three replicas. *)
Definition lacking : Framework nat :=
  {| KubeClient :=
       {| StatefulSets_Update := fun ns obj =>
            if String.eqb ns "default" && String.eqb (StatefulSet.Name obj) "db"
            then always (obj, Some "statefulsets.apps db not found")
            else always (obj, None);
          StatefulSets_Get := fun ns name =>
            if String.eqb ns "default" && String.eqb name "db"
            then always (no_statefulset, Some "statefulsets.apps db not found")
            else always (statefulset_of 3 3, None);
          Deployments_Update := fun ns obj =>
            if String.eqb ns "default" && String.eqb (Deployment.Name obj) "web"
            then always (obj, Some "deployments.apps web not found")
            else always (obj, None);
          Deployments_Get := fun ns name =>
            if String.eqb ns "default" && String.eqb name "web"
            then always (no_deployment, Some "deployments.apps web not found")
            else always (deployment_of 3 3, None) |} |}.

(** A cluster that accepts every update and whose successive reads of the
    StatefulSet observe the given counts, then zero. *)
Definition draining (counts : list Z) : Framework nat :=
  {| KubeClient :=
       {| StatefulSets_Update := fun _ obj reads => ((obj, None), reads);
          StatefulSets_Get := fun _ _ reads =>
            ((statefulset_of 0 (nth reads counts 0), None),
             Datatypes.S reads);
          Deployments_Update := fun _ obj reads => ((obj, None), reads);
          Deployments_Get := fun _ _ reads =>
            ((no_deployment, None), Datatypes.S reads) |} |}.

Definition boot {Mem : Type} (obj : Mem) : Machine (Store Mem nat) :=
  (mkStore obj 0%nat [], mkTimer 0 []).

(** * Environment lookup for interpolation

    [hack/tools/vendor/github.com/buildkite/interpolate/env.go].  A Go
    [map[string]string] is a [gmap string string], and the nil map is
    [None].  [runtime.GOOS], [strings.ToUpper] and the order in which
    [range] visits a map are parameters. *)

(** [strings.Index s substr]: the index of the first occurrence of
    [substr] in [s], or -1. *)
Fixpoint strings_Index (s substr : string) : Z :=
  if String.prefix substr s then 0
  else
    match s with
    | EmptyString => -1
    | String _ s' =>
        let i := strings_Index s' substr in
        if i <? 0 then -1 else 1 + i
    end.

(** [len(s)], [s[:m]] and [s[m:]] *)
Definition len (s : string) : Z := Z.of_nat (String.length s).

Definition slice_to (m : Z) (s : string) : string :=
  String.substring 0 (Z.to_nat m) s.

Definition slice_from (m : Z) (s : string) : string :=
  String.substring (Z.to_nat m) (String.length s - Z.to_nat m) s.

(** The loop of [genSplit]: cut at the first [sep], at most [k] times. *)
Fixpoint genSplit_loop (k : nat) (s sep : string) : list string :=
  match k with
  | O => [s]
  | Datatypes.S k' =>
      let m := strings_Index s sep in
      if m <? 0 then [s]
      else slice_to m s :: genSplit_loop k' (slice_from (m + len sep) s) sep
  end.

(** [explode]: one piece per byte, the last piece the remainder (Go cuts
    after each UTF-8 sequence, which is the same on ASCII strings). *)
Fixpoint explode_loop (k : nat) (s : string) : list string :=
  match k, s with
  | Datatypes.S k', String c s' => String c EmptyString :: explode_loop k' s'
  | _, _ => [s]
  end.

(** [strings.SplitN s sep n]: at most [n] pieces, the last one the unsplit
    remainder; no limit when [n] is negative, and nil when [n] is zero.
    The loop stops by itself when no separator is left, so a negative [n]
    is served by the bound [len s + 1]. *)
Definition strings_SplitN (s sep : string) (n : Z) : list string :=
  if n =? 0 then []
  else
    match sep with
    | EmptyString =>
        let n := if (n <? 0) || (len s <? n) then len s else n in
        if n =? 0 then [] else explode_loop (Z.to_nat (n - 1)) s
    | _ =>
        let n := if (n <? 0) || (len s + 1 <? n) then len s + 1 else n in
        genSplit_loop (Z.to_nat (n - 1)) s sep
    end.

Module interpolate.

(** [type mapEnv map[string]string] *)
Definition mapEnv : Type := option (stdpp.gmap.gmap string string).

Section Runtime.
(** [runtime.GOOS] *)
Variable GOOS : string.
(** [strings.ToUpper] *)
Variable ToUpper : string -> string.
(** The order in which [range] visits the entries of a map. *)
Variable range : stdpp.gmap.gmap string string -> list (string * string).

(** Windows isn't case sensitive for env *)
Definition normalizeKeyName (key : string) : string :=
  if String.eqb GOOS "windows" then ToUpper key else key.

(** Creates an Env from a slice of environment variables *)
Definition NewSliceEnv (env : list string) : mapEnv :=
  Some
    (fold_left
       (fun envMap l =>
          let parts := strings_SplitN l "=" 2 in
          if (List.length parts =? 2)%nat then
            stdpp.base.insert (normalizeKeyName (nth 0 parts EmptyString))
              (nth 1 parts EmptyString) envMap
          else envMap)
       env stdpp.base.empty).

(** Creates an Env from a map of environment variables *)
Definition NewMapEnv (env : stdpp.gmap.gmap string string) : mapEnv :=
  Some
    (fold_left
       (fun envMap kv =>
          stdpp.base.insert (normalizeKeyName (fst kv)) (snd kv) envMap)
       (range env) stdpp.base.empty).

Definition Get (m : mapEnv) (key : string) : string * bool :=
  match m with
  | None => (EmptyString, false)
  | Some m =>
      match stdpp.base.lookup (normalizeKeyName key) m with
      | Some val => (val, true)
      | None => (EmptyString, false)
      end
  end.

End Runtime.

(** The pair [key=value] as it stands in a slice of environment
    variables. *)
Definition assign (key value : string) : string :=
  (key ++ "=" ++ value)%string.

(** ASCII upper-casing, which is [strings.ToUpper] on ASCII strings. *)
Definition upper_ascii (c : ascii) : ascii :=
  let n := nat_of_ascii c in
  if ((97 <=? n) && (n <=? 122))%nat then ascii_of_nat (n - 32) else c.

Fixpoint ToUpper_ascii (s : string) : string :=
  match s with
  | EmptyString => EmptyString
  | String c s' => String (upper_ascii c) (ToUpper_ascii s')
  end.

End interpolate.

(** A map of two variables. *)
Definition two_vars : stdpp.gmap.gmap string string :=
  stdpp.base.insert "Path" "/bin"
    (stdpp.base.insert "HOME" "/root" stdpp.base.empty).

(** * Building the framework

    The rest of [framework.go]: the package-level flags, the constructors
    of [Framework], the lazy construction of its clients, the error
    hooks, and the image upload.  Here the [Framework] struct is seen as
    the constructors see it: its clients are nullable handles. *)

Module SSHConfig.
Record t := { Key : string; User : string; Host : string }.
End SSHConfig.

(** The package-level variables the flags are parsed into. *)
Record Flags := {
  kubeconfig : string;
  ClusterID : string;
  sshkey : string;
  sshuser : string;
  actuatorImage : string
}.

(** The double quote, which a string literal cannot hold. *)
Definition dquote : string := String (ascii_of_nat 34) EmptyString.

Module harness.

(** A call that leaves the package, with the error it returned. *)
Inductive Call :=
| GetConfigCall (path : string) (err : error)
| KubeNewForConfig (err : error)
| CAPINewForConfig (err : error)
| APIRegistrationNewForConfig (err : error)
| ErrNotExpectedCall (err : error)
| BeforeEachCall
| CombinedOutputCall (argv : list string) (err : error)
| LogCall (line : string).

(** What a Go call ends in: a return, or a nil-pointer panic. *)
Inductive Outcome (A : Type) :=
| Returned (a : A)
| Panicked.
Arguments Returned {A}.
Arguments Panicked {A}.

Section Harness.
(** [*rest.Config] and the three client sets, and the state of everything
    outside the package. *)
Context {Config KubeClientset CAPIClientset APIRegistrationClientset X : Type}.

Record Framework := {
  KubeClient : option KubeClientset;
  CAPIClient : option CAPIClientset;
  APIRegistrationClient : option APIRegistrationClientset;
  Kubeconfig : string;
  RestConfig : option Config;
  SSH : option SSHConfig.t;
  ActuatorImage : string;
  ErrNotExpected : error -> X -> X;
  By : string -> X -> X
}.

Definition set_RestConfig (c : option Config) (f : Framework) : Framework :=
  {| KubeClient := KubeClient f; CAPIClient := CAPIClient f;
     APIRegistrationClient := APIRegistrationClient f;
     Kubeconfig := Kubeconfig f; RestConfig := c; SSH := SSH f;
     ActuatorImage := ActuatorImage f; ErrNotExpected := ErrNotExpected f;
     By := By f |}.

Definition set_KubeClient (c : option KubeClientset) (f : Framework)
  : Framework :=
  {| KubeClient := c; CAPIClient := CAPIClient f;
     APIRegistrationClient := APIRegistrationClient f;
     Kubeconfig := Kubeconfig f; RestConfig := RestConfig f; SSH := SSH f;
     ActuatorImage := ActuatorImage f; ErrNotExpected := ErrNotExpected f;
     By := By f |}.

Definition set_CAPIClient (c : option CAPIClientset) (f : Framework)
  : Framework :=
  {| KubeClient := KubeClient f; CAPIClient := c;
     APIRegistrationClient := APIRegistrationClient f;
     Kubeconfig := Kubeconfig f; RestConfig := RestConfig f; SSH := SSH f;
     ActuatorImage := ActuatorImage f; ErrNotExpected := ErrNotExpected f;
     By := By f |}.

Definition set_APIRegistrationClient (c : option APIRegistrationClientset)
    (f : Framework) : Framework :=
  {| KubeClient := KubeClient f; CAPIClient := CAPIClient f;
     APIRegistrationClient := c;
     Kubeconfig := Kubeconfig f; RestConfig := RestConfig f; SSH := SSH f;
     ActuatorImage := ActuatorImage f; ErrNotExpected := ErrNotExpected f;
     By := By f |}.

(** The functions of other packages the file calls. *)
Record Libs := {
  (** [controller.GetConfig] *)
  GetConfig : string -> X -> (option Config * error) * X;
  (** [kubernetes.NewForConfig] *)
  kubernetes_NewForConfig :
    option Config -> X -> (option KubeClientset * error) * X;
  (** [clientset.NewForConfig] *)
  clientset_NewForConfig :
    option Config -> X -> (option CAPIClientset * error) * X;
  (** [apiregistrationclientset.NewForConfig] *)
  apiregistration_NewForConfig :
    option Config -> X -> (option APIRegistrationClientset * error) * X;
  (** [Expect(err).NotTo(HaveOccurred())] *)
  Expect_NotTo_HaveOccurred : error -> X -> X;
  (** ginkgo's [By] *)
  ginkgo_By : string -> X -> X;
  (** [exec.Command(argv...).CombinedOutput()] *)
  CombinedOutput : list string -> X -> (string * error) * X;
  (** The [%q] verb applied to a string. *)
  Quote : string -> string
}.

Variable libs : Libs.

(** Everything outside the framework struct: the outer state and the calls
    made so far, oldest first. *)
Record World := mkWorld { ext : X; calls : list Call }.

(** The state of a method with receiver [f *Framework]. *)
Definition Method (A : Type) : Type := St (Framework * World) A.

Definition self : Method Framework := fun s => (fst s, s).

Definition assign (g : Framework -> Framework) : Method unit :=
  fun s => (tt, (g (fst s), snd s)).

(** Call out of the package and note the call with its error. *)
Definition extern {S A : Type} (ev : error -> Call) (err_of : A -> error)
    (c : X -> A * X) : St (S * World) A :=
  fun s =>
    let (a, x) := c (ext (snd s)) in
    (a, (fst s, mkWorld x (calls (snd s) ++ [ev (err_of a)]))).

Definition log_Info {S : Type} (line : string) : St (S * World) unit :=
  fun s => (tt, (fst s, mkWorld (ext (snd s)) (calls (snd s) ++ [LogCall line]))).

(** [f.ErrNotExpected(err)] *)
Definition call_ErrNotExpected (err : error) : Method unit :=
  fun s =>
    (tt, (fst s,
          mkWorld (ErrNotExpected (fst s) err (ext (snd s)))
            (calls (snd s) ++ [ErrNotExpectedCall err]))).

Definition is_nil_handle {A : Type} (p : option A) : bool :=
  match p with
  | None => true
  | Some _ => false
  end.

Definition buildClientsets : Method error :=
  f <- self ;;
  err <- (if is_nil_handle (RestConfig f) then
            r <- extern (GetConfigCall (Kubeconfig f)) snd
                   (GetConfig libs (Kubeconfig f)) ;;
            assign (set_RestConfig (fst r)) ;;
            ret (snd r)
          else ret None) ;;
  if negb (is_nil err) then ret err
  else
    f <- self ;;
    err <- (if is_nil_handle (KubeClient f) then
              r <- extern KubeNewForConfig snd
                     (kubernetes_NewForConfig libs (RestConfig f)) ;;
              assign (set_KubeClient (fst r)) ;;
              ret (snd r)
            else ret None) ;;
    if negb (is_nil err) then ret err
    else
      f <- self ;;
      err <- (if is_nil_handle (CAPIClient f) then
                r <- extern CAPINewForConfig snd
                       (clientset_NewForConfig libs (RestConfig f)) ;;
                assign (set_CAPIClient (fst r)) ;;
                ret (snd r)
              else ret None) ;;
      if negb (is_nil err) then ret err
      else
        f <- self ;;
        err <- (if is_nil_handle (APIRegistrationClient f) then
                  r <- extern APIRegistrationNewForConfig snd
                         (apiregistration_NewForConfig libs (RestConfig f)) ;;
                  assign (set_APIRegistrationClient (fst r)) ;;
                  ret (snd r)
                else ret None) ;;
        if negb (is_nil err) then ret err
        else ret None.

(** BeforeEach to be run before each spec responsible for building
    various clientsets *)
Definition BeforeEach : Method unit :=
  err <- buildClientsets ;;
  call_ErrNotExpected err.

(** IgnoreNotFoundErr ignores not found errors in case resource that does
    not exist is to be deleted *)
Definition IgnoreNotFoundErr (err : error) : Method unit :=
  match err with
  | Some msg =>
      if strings.Contains msg "not found" then ret tt
      else call_ErrNotExpected err
  | None => ret tt
  end.

(** NewFramework setups a new framework *)
Definition NewFramework (flags : Flags) : St World (option Framework * error) :=
  if String.eqb (sshkey flags) EmptyString then
    ret (None, Some "-sshkey not set")
  else if String.eqb (kubeconfig flags) EmptyString then
    ret (None, Some "-kubeconfig not set")
  else
    let f :=
      {| KubeClient := None; CAPIClient := None;
         APIRegistrationClient := None;
         Kubeconfig := kubeconfig flags;
         RestConfig := None;
         SSH := Some {| SSHConfig.Key := sshkey flags;
                        SSHConfig.User := sshuser flags;
                        SSHConfig.Host := EmptyString |};
         ActuatorImage := actuatorImage flags;
         ErrNotExpected := Expect_NotTo_HaveOccurred libs;
         By := ginkgo_By libs |} in
    fun w => ((Some f, None), mkWorld (ext w) (calls w ++ [BeforeEachCall])).

Definition DefaultSSHConfig (flags : Flags) : option SSHConfig.t * error :=
  if String.eqb (sshkey flags) EmptyString then
    (None, Some "-sshkey not set")
  else
    (Some {| SSHConfig.Key := sshkey flags;
             SSHConfig.User := sshuser flags;
             SSHConfig.Host := EmptyString |}, None).

Definition NewFrameworkFromConfig (flags : Flags) (config : option Config)
    (sshConfig : option SSHConfig.t) : St World (Framework * error) :=
  fun w =>
    let f :=
      {| KubeClient := None; CAPIClient := None;
         APIRegistrationClient := None;
         Kubeconfig := EmptyString;
         RestConfig := config;
         SSH := sshConfig;
         ActuatorImage := actuatorImage flags;
         ErrNotExpected := Expect_NotTo_HaveOccurred libs;
         By := ginkgo_By libs |} in
    let '(err, (f', w')) := buildClientsets (f, w) in
    ((f', err), w').

(** The command line [UploadDockerImageToInstance] hands to [bash -c]. *)
Definition upload_command (image key targetMachine : string) : string :=
  ("docker save " ++ image
   ++ " | bzip2 | ssh -o StrictHostKeyChecking=no -i " ++ key
   ++ " ec2-user@" ++ targetMachine ++ " " ++ dquote
   ++ "bunzip2 > /tmp/tempimage.bz2 && sudo docker load -i /tmp/tempimage.bz2"
   ++ dquote)%string.

Definition UploadDockerImageToInstance (image targetMachine : string)
  : Method (Outcome error) :=
  log_Info ("Uploading " ++ Quote libs image
            ++ " to the master machine under "
            ++ Quote libs targetMachine)%string ;;
  f <- self ;;
  match SSH f with
  | None => ret Panicked
  | Some ssh =>
      r <- extern
             (CombinedOutputCall
                ["bash"; "-c";
                 upload_command image (SSHConfig.Key ssh) targetMachine])
             snd
             (CombinedOutput libs
                ["bash"; "-c";
                 upload_command image (SSHConfig.Key ssh) targetMachine]) ;;
      let (out, err) := r in
      if negb (is_nil err) then
        log_Info out ;;
        ret (Returned err)
      else
        log_Info out ;;
        ret (Returned None)
  end.

End Harness.
End harness.

(** ** Vocabulary for the construction statements *)

(** The error a noted call returned. *)
Definition call_err (c : harness.Call) : error :=
  match c with
  | harness.GetConfigCall _ err
  | harness.KubeNewForConfig err
  | harness.CAPINewForConfig err
  | harness.APIRegistrationNewForConfig err
  | harness.ErrNotExpectedCall err
  | harness.CombinedOutputCall _ err => err
  | harness.BeforeEachCall | harness.LogCall _ => None
  end.

(** The place of a constructor call in the order of [buildClientsets];
    other calls have none. *)
Definition build_rank (c : harness.Call) : option nat :=
  match c with
  | harness.GetConfigCall _ _ => Some 0%nat
  | harness.KubeNewForConfig _ => Some 1%nat
  | harness.CAPINewForConfig _ => Some 2%nat
  | harness.APIRegistrationNewForConfig _ => Some 3%nat
  | _ => None
  end.

(** The calls are constructor calls in strictly rising order. *)
Fixpoint rising (from : nat) (cs : list harness.Call) : Prop :=
  match cs with
  | [] => True
  | c :: cs' =>
      match build_rank c with
      | Some r => (from <= r)%nat /\ rising (Datatypes.S r) cs'
      | None => False
      end
  end.

(** The error of the last call, nil when there is none. *)
Definition last_err (cs : list harness.Call) : error :=
  match rev cs with
  | [] => None
  | c :: _ => call_err c
  end.

(** All four handles are set. *)
Definition built {Config K C A X : Type}
    (f : @harness.Framework Config K C A X) : Prop :=
  harness.RestConfig f <> None
  /\ harness.KubeClient f <> None
  /\ harness.CAPIClient f <> None
  /\ harness.APIRegistrationClient f <> None.

(** Every constructor that returns a nil error returns a handle. *)
Definition honest {Config K C A X : Type}
    (libs : @harness.Libs Config K C A X) : Prop :=
  (forall path x,
     snd (fst (harness.GetConfig libs path x)) = None ->
     fst (fst (harness.GetConfig libs path x)) <> None)
  /\ (forall c x,
        snd (fst (harness.kubernetes_NewForConfig libs c x)) = None ->
        fst (fst (harness.kubernetes_NewForConfig libs c x)) <> None)
  /\ (forall c x,
        snd (fst (harness.clientset_NewForConfig libs c x)) = None ->
        fst (fst (harness.clientset_NewForConfig libs c x)) <> None)
  /\ (forall c x,
        snd (fst (harness.apiregistration_NewForConfig libs c x)) = None ->
        fst (fst (harness.apiregistration_NewForConfig libs c x)) <> None).

(** What is left of a framework when its four handles are put aside. *)
Definition settings {Config K C A X : Type}
    (f : @harness.Framework Config K C A X)
  : string * option SSHConfig.t * string :=
  (harness.Kubeconfig f, harness.SSH f, harness.ActuatorImage f).

(** The call constructs a handle that was nil in [f], from what [f]
    holds. *)
Definition fills_nil {Config K C A X : Type}
    (f : @harness.Framework Config K C A X) (c : harness.Call) : Prop :=
  match c with
  | harness.GetConfigCall path _ =>
      harness.RestConfig f = None /\ path = harness.Kubeconfig f
  | harness.KubeNewForConfig _ => harness.KubeClient f = None
  | harness.CAPINewForConfig _ => harness.CAPIClient f = None
  | harness.APIRegistrationNewForConfig _ =>
      harness.APIRegistrationClient f = None
  | _ => False
  end.

(** The call is a call of the [ErrNotExpected] hook. *)
Definition is_hook_call (c : harness.Call) : bool :=
  match c with
  | harness.ErrNotExpectedCall _ => true
  | _ => false
  end.

(** A call [NewFrameworkFromConfig] may make when handed [config]: a
    client constructor, or, only without a configuration, the loading of
    one from the empty path. *)
Definition from_config_call {Config : Type} (config : option Config)
    (c : harness.Call) : Prop :=
  match c with
  | harness.GetConfigCall path _ => config = None /\ path = EmptyString
  | harness.KubeNewForConfig _
  | harness.CAPINewForConfig _
  | harness.APIRegistrationNewForConfig _ => True
  | _ => False
  end.

(** ** Scripted libraries *)

(** Libraries that always succeed; the outer state counts the calls. *)
Definition good_libs : @harness.Libs unit unit unit unit nat :=
  {| harness.GetConfig := fun _ => always (Some tt, None);
     harness.kubernetes_NewForConfig := fun _ => always (Some tt, None);
     harness.clientset_NewForConfig := fun _ => always (Some tt, None);
     harness.apiregistration_NewForConfig := fun _ => always (Some tt, None);
     harness.Expect_NotTo_HaveOccurred := fun _ x => x;
     harness.ginkgo_By := fun _ x => x;
     harness.CombinedOutput := fun _ => always ("Loaded image", None);
     harness.Quote := fun s => (dquote ++ s ++ dquote)%string |}.

Definition flags0 : Flags :=
  {| kubeconfig := "/etc/kube.cfg"; ClusterID := "c1";
     sshkey := "/root/id_rsa"; sshuser := "centos";
     actuatorImage := "actuator:1" |}.

(** The framework [NewFramework] makes from [flags0] with [good_libs]. *)
Definition framework0 : @harness.Framework unit unit unit unit nat :=
  {| harness.KubeClient := None; harness.CAPIClient := None;
     harness.APIRegistrationClient := None;
     harness.Kubeconfig := "/etc/kube.cfg";
     harness.RestConfig := None;
     harness.SSH := Some {| SSHConfig.Key := "/root/id_rsa";
                            SSHConfig.User := "centos";
                            SSHConfig.Host := EmptyString |};
     harness.ActuatorImage := "actuator:1";
     harness.ErrNotExpected := fun _ x => x;
     harness.By := fun _ x => x |}.

(** The same framework with another ssh user and host. *)
Definition framework1 : @harness.Framework unit unit unit unit nat :=
  {| harness.KubeClient := None; harness.CAPIClient := None;
     harness.APIRegistrationClient := None;
     harness.Kubeconfig := "/etc/kube.cfg";
     harness.RestConfig := None;
     harness.SSH := Some {| SSHConfig.Key := "/root/id_rsa";
                            SSHConfig.User := "ubuntu";
                            SSHConfig.Host := "10.0.0.7" |};
     harness.ActuatorImage := "actuator:1";
     harness.ErrNotExpected := fun _ x => x;
     harness.By := fun _ x => x |}.

Definition world0 : @harness.World nat := harness.mkWorld 0%nat [].

(** ** More vocabulary for the lifecycle operations *)

(** The event is a log line, or an update of [obj] in namespace [ns], or
    a read of the StatefulSet [name] in [ns]. *)
Definition touches_statefulset (ns name : string) (obj : StatefulSet.t)
    (e : Event) : Prop :=
  match e with
  | StatefulSetsUpdate ns' o _ => ns' = ns /\ o = obj
  | StatefulSetsGet ns' name' _ => ns' = ns /\ name' = name
  | Infof _ => True
  | _ => False
  end.

Definition touches_deployment (ns name : string) (obj : Deployment.t)
    (e : Event) : Prop :=
  match e with
  | DeploymentsUpdate ns' o _ => ns' = ns /\ o = obj
  | DeploymentsGet ns' name' _ => ns' = ns /\ name' = name
  | Infof _ => True
  | _ => False
  end.

(** How many events of a kind a trace holds. *)
Definition count (p : Event -> bool) (l : list Event) : nat :=
  List.length (filter p l).

Definition is_delete (e : Event) : bool :=
  match e with
  | DelFnc _ => true
  | _ => false
  end.

Definition is_accepted_delete (e : Event) : bool :=
  match e with
  | DelFnc None => true
  | _ => false
  end.

Definition is_get (e : Event) : bool :=
  match e with
  | GetFnc _ => true
  | _ => false
  end.

(** * Writing a list to a JSON stream

    [writeVersionInquiryResponseList], with the stream's methods and the
    writer of one element as parameters. *)

Module servicemgmt.
Section Stream.
Context {Stream VersionInquiryResponse : Type}.
Variables WriteArrayStart WriteMore WriteArrayEnd : Stream -> Stream.
Variable writeVersionInquiryResponse :
  VersionInquiryResponse -> Stream -> Stream.

(** The [for i, value := range list] loop, from index [i] on. *)
Fixpoint write_from (i : nat) (list : Datatypes.list VersionInquiryResponse)
    (stream : Stream) : Stream :=
  match list with
  | [] => stream
  | value :: rest =>
      let stream := if (0 <? i)%nat then WriteMore stream else stream in
      write_from (Datatypes.S i) rest
        (writeVersionInquiryResponse value stream)
  end.

Definition writeVersionInquiryResponseList
    (list : Datatypes.list VersionInquiryResponse) (stream : Stream)
  : Stream :=
  let stream := WriteArrayStart stream in
  let stream := write_from 0 list stream in
  WriteArrayEnd stream.

End Stream.

(** The calls a writer can make on a stream. *)
Inductive Token (V : Type) :=
| ArrayStart
| More
| ArrayEnd
| Element (v : V).
Arguments ArrayStart {V}.
Arguments More {V}.
Arguments ArrayEnd {V}.
Arguments Element {V}.

(** Make the calls of a list of tokens, first to last. *)
Definition replay {Stream V : Type}
    (WriteArrayStart WriteMore WriteArrayEnd : Stream -> Stream)
    (writeVersionInquiryResponse : V -> Stream -> Stream)
    (tokens : list (Token V)) (stream : Stream) : Stream :=
  fold_left
    (fun stream token =>
       match token with
       | ArrayStart => WriteArrayStart stream
       | More => WriteMore stream
       | ArrayEnd => WriteArrayEnd stream
       | Element v => writeVersionInquiryResponse v stream
       end)
    tokens stream.

(** The elements with a [More] between neighbours. *)
Fixpoint separated {V : Type} (list : Datatypes.list V)
  : Datatypes.list (Token V) :=
  match list with
  | [] => []
  | [v] => [Element v]
  | v :: rest => Element v :: More :: separated rest
  end.

End servicemgmt.

(** * Properties *)

(** ** The poller *)

Section PollerFacts.
Context {S : Type}.
Variable spec : PollSpec.
Variable step : St S PollOutcome.

Lemma boundaries_cons t0 d n :
  boundaries t0 d (Datatypes.S n) = t0 :: boundaries (t0 + d) d n.
Proof.
  unfold boundaries. cbn [seq map]. f_equal; [lia|].
  rewrite <- seq_shift, map_map. apply map_ext. intros k. lia.
Qed.

Lemma boundaries_one t0 d : boundaries t0 d 1 = [t0].
Proof. unfold boundaries. cbn [seq map]. f_equal. lia. Qed.

Lemma poll_loop_unfold fuel start s t :
  Poller.poll_loop spec step fuel start (s, t) =
  let t0 := Poller.mark t in
  let (o, s1) := step s in
  match o with
  | Converged => (Success, (s1, t0))
  | Failed reason => (Fatal reason, (s1, t0))
  | Pending =>
      let t1 := Poller.sleep (Poller.interval spec) t0 in
      if Poller.timeout spec <? now t1 - start then (TimedOut, (s1, t1))
      else
        match fuel with
        | O => (TimedOut, (s1, t1))
        | Datatypes.S fuel' => Poller.poll_loop spec step fuel' start (s1, t1)
        end
  end.
Proof. destruct fuel; reflexivity. Qed.

(** Fuel beyond the tick boundaries inside the timeout changes nothing:
    the loop never gets to its out-of-fuel branch. *)
Lemma poll_loop_fuel fuel : forall start s t,
  0 < Poller.interval spec ->
  Poller.timeout spec <
    now t - start + (Z.of_nat fuel + 1) * Poller.interval spec ->
  Poller.poll_loop spec step (Datatypes.S fuel) start (s, t)
  = Poller.poll_loop spec step fuel start (s, t).
Proof.
  induction fuel as [|fuel IH]; intros start s t Hi Hf;
    do 2 rewrite poll_loop_unfold;
    cbn zeta; destruct (step s) as [o s1]; destruct o; try reflexivity;
    destruct (_ <? _) eqn:Ht; try reflexivity;
    apply Z.ltb_ge in Ht; cbn [now ticks Poller.sleep Poller.mark] in Ht.
  - lia.
  - apply IH; [exact Hi|]. cbn [now ticks Poller.sleep Poller.mark]. lia.
Qed.

(** A run ends [Fatal] only with the reason of a [Failed] step. *)
Lemma poll_loop_fatal fuel : forall start m e,
  fst (Poller.poll_loop spec step fuel start m) = Fatal e ->
  exists s, fst (step s) = Failed e.
Proof.
  induction fuel as [|fuel IH]; intros start [s t] e;
    rewrite poll_loop_unfold; cbn zeta;
    destruct (step s) as [o s1] eqn:Hs; destruct o; cbn;
    try discriminate.
  - destruct (_ <? _); discriminate.
  - intros [= ->]. exists s. now rewrite Hs.
  - destruct (_ <? _); [discriminate|]. apply IH.
  - intros [= ->]. exists s. now rewrite Hs.
Qed.

(** A step that only ever answers [Pending] runs into the timeout. *)
Lemma poll_loop_pending fuel : forall start m,
  (forall s, fst (step s) = Pending) ->
  fst (Poller.poll_loop spec step fuel start m) = TimedOut.
Proof.
  induction fuel as [|fuel IH]; intros start [s t] Hp;
    rewrite poll_loop_unfold; cbn zeta;
    specialize (Hp s) as Hs; destruct (step s) as [o s1]; cbn in Hs; subst o;
    destruct (_ <? _); auto.
Qed.

(** Whatever every step preserves, the run preserves. *)
Lemma poll_loop_preserves (R : S -> S -> Prop) :
  (forall s, R s s) ->
  (forall a b c, R a b -> R b c -> R a c) ->
  (forall s, R s (snd (step s))) ->
  forall fuel start m,
    R (fst m) (fst (snd (Poller.poll_loop spec step fuel start m))).
Proof.
  intros Hrefl Htrans Hstep.
  induction fuel as [|fuel IH]; intros start [s t];
    rewrite poll_loop_unfold; cbn zeta;
    specialize (Hstep s); destruct (step s) as [o s1]; cbn in Hstep;
    destruct o; cbn; auto; destruct (_ <? _); cbn; auto.
  eapply Htrans; [exact Hstep|]. apply (IH start (s1, _)).
Qed.

(** A first step that converges ends the run on the spot. *)
Lemma Poll_converged s s' t :
  step s = (Converged, s') ->
  Poller.Poll spec step (s, t) = (Success, (s', Poller.mark t)).
Proof.
  intros H. unfold Poller.Poll. rewrite poll_loop_unfold. cbn zeta.
  now rewrite H.
Qed.

(** The shape of a run that has enough fuel: [Datatypes.S n] invocations,
    one per tick boundary. *)
Lemma poll_loop_schedule fuel : forall start s t,
  0 < Poller.interval spec ->
  Poller.timeout spec <
    now t - start + (Z.of_nat fuel + 1) * Poller.interval spec ->
  exists n : nat,
    let '(r, (s', t')) := Poller.poll_loop spec step fuel start (s, t) in
    ticks t' = ticks t ++ boundaries (now t) (Poller.interval spec) (Datatypes.S n)
    /\ s' = after step (Datatypes.S n) s
    /\ (forall k, (k < n)%nat -> fst (step (after step k s)) = Pending)
    /\ (forall k, (1 <= k <= n)%nat ->
          now t - start + Z.of_nat k * Poller.interval spec
            <= Poller.timeout spec)
    /\ match r with
       | Success =>
           fst (step (after step n s)) = Converged
           /\ now t' = now t + Z.of_nat n * Poller.interval spec
       | Fatal reason =>
           fst (step (after step n s)) = Failed reason
           /\ now t' = now t + Z.of_nat n * Poller.interval spec
       | TimedOut =>
           fst (step (after step n s)) = Pending
           /\ Poller.timeout spec <
                now t - start + (Z.of_nat n + 1) * Poller.interval spec
           /\ now t' = now t + (Z.of_nat n + 1) * Poller.interval spec
       end.
Proof.
  induction fuel as [|fuel IH]; intros start s t Hi Hf;
    rewrite poll_loop_unfold; cbn zeta;
    destruct (step s) as [o s1] eqn:Hs; destruct o.
  1, 3, 4, 6:
    exists 0%nat; cbn [after fst snd now ticks Poller.mark]; rewrite Hs;
    cbn [fst snd]; rewrite boundaries_one; repeat split; lia.
  - destruct (_ <? _) eqn:Ht;
      [apply Z.ltb_lt in Ht|apply Z.ltb_ge in Ht];
      cbn [now ticks Poller.sleep Poller.mark] in Ht; [|lia].
    exists 0%nat; cbn [after fst snd now ticks Poller.sleep Poller.mark].
    rewrite Hs; cbn [fst snd]; rewrite boundaries_one; repeat split; lia.
  - destruct (_ <? _) eqn:Ht;
      [apply Z.ltb_lt in Ht|apply Z.ltb_ge in Ht];
      cbn [now ticks Poller.sleep Poller.mark] in Ht.
    + exists 0%nat; cbn [after fst snd now ticks Poller.sleep Poller.mark].
      rewrite Hs; cbn [fst snd]; rewrite boundaries_one; repeat split; lia.
    + destruct (IH start s1
                  (Poller.sleep (Poller.interval spec) (Poller.mark t)) Hi)
        as [n Hn]; [cbn [now ticks Poller.sleep Poller.mark]; lia|].
      exists (Datatypes.S n).
      destruct (Poller.poll_loop spec step fuel start _) as [r [s' t']].
      cbn [now ticks Poller.sleep Poller.mark] in Hn.
      destruct Hn as (Hticks & Hs' & Hpend & Hin & Hr).
      split; [|split; [|split; [|split]]].
      * rewrite Hticks, <- app_assoc. f_equal.
        now rewrite (boundaries_cons (now t)).
      * cbn [after]. now rewrite Hs.
      * intros [|k] Hk; cbn [after]; rewrite Hs; cbn [fst snd]; auto.
        apply Hpend. lia.
      * intros k Hk. destruct (Nat.eq_dec k 1) as [->|Hk1]; [lia|].
        specialize (Hin (Nat.pred k)). lia.
      * cbn [after]. rewrite Hs. cbn [snd].
        destruct r; intuition lia.
Qed.

End PollerFacts.

Lemma fuel_enough (spec : PollSpec) :
  0 < Poller.interval spec ->
  Poller.timeout spec <
    (Z.of_nat (Z.to_nat (Poller.timeout spec / Poller.interval spec)) + 1)
    * Poller.interval spec.
Proof.
  intros Hi.
  pose proof (Z.mul_succ_div_gt (Poller.timeout spec) _ Hi) as H.
  nia.
Qed.

(** ** [wait.Poll] on condition closures *)

Section WaitFacts.
Context {S : Type}.
Variables interval timeout : time.Duration.
Variable condition : St S (bool * error).

(** A closure that never returns an error never makes the poll fail. *)
Lemma wait_Poll_no_error :
  (forall s, snd (fst (condition s)) = None) ->
  forall m,
    fst (wait.Poll interval timeout condition m) = Success
    \/ fst (wait.Poll interval timeout condition m) = TimedOut.
Proof.
  intros Hnil m. unfold wait.Poll, Poller.Poll.
  destruct (fst (Poller.poll_loop _ _ _ _ m)) as [| |e] eqn:Hr; auto.
  apply poll_loop_fatal in Hr. destruct Hr as [s Hs].
  specialize (Hnil s). destruct (condition s) as [[done err] s'].
  cbn in Hnil, Hs. subst err. destruct done; discriminate.
Qed.

(** [(true, nil)] on the first tick: success, with no sleep. *)
Lemma wait_Poll_done s s' t :
  condition s = ((true, None), s') ->
  wait.Poll interval timeout condition (s, t) =
    (Success, (s', Poller.mark t)).
Proof.
  intros H. unfold wait.Poll. apply Poll_converged. now rewrite H.
Qed.

Lemma wait_Poll_preserves (R : S -> S -> Prop) :
  (forall s, R s s) ->
  (forall a b c, R a b -> R b c -> R a c) ->
  (forall s, R s (snd (condition s))) ->
  forall m, R (fst m) (fst (snd (wait.Poll interval timeout condition m))).
Proof.
  intros Hrefl Htrans Hstep m. unfold wait.Poll, Poller.Poll.
  apply poll_loop_preserves; auto.
  intros s. specialize (Hstep s). now destruct (condition s).
Qed.

(** With a positive interval, [TimedOut] is returned only once the time
    slept exceeds the timeout. *)
Lemma wait_Poll_budget :
  0 < interval ->
  forall m,
    fst (wait.Poll interval timeout condition m) = TimedOut ->
    timeout < now (snd (snd (wait.Poll interval timeout condition m)))
              - now (snd m).
Proof.
  intros Hi [s t]. unfold wait.Poll, Poller.Poll. cbn [snd].
  set (spec := {| Poller.interval := interval; Poller.timeout := timeout |}).
  destruct (poll_loop_schedule spec
              (fun s => let (r, s') := condition s in (wait.outcome r, s'))
              (Z.to_nat (Poller.timeout spec / Poller.interval spec))
              (now t) s t Hi) as [n Hn].
  { pose proof (fuel_enough spec Hi). lia. }
  destruct (Poller.poll_loop _ _ _ _ _) as [r [s' t']]. cbn [fst snd].
  intros ->. cbn [Poller.interval Poller.timeout spec] in Hn.
  destruct Hn as (_ & _ & _ & _ & _ & Hlt & Hnow). lia.
Qed.

End WaitFacts.

(** ** What a tick does to the store *)

Section Grows.
Context {Mem W : Type}.

Lemma grows_refl (P : Mem -> Event -> Prop) (s : Store Mem W) : grows P s s.
Proof. split; [reflexivity|]. exists []. now rewrite app_nil_r. Qed.

Lemma grows_trans (P : Mem -> Event -> Prop) (a b c : Store Mem W) :
  grows P a b -> grows P b c -> grows P a c.
Proof.
  intros [Hm1 (e1 & Ht1 & Hp1)] [Hm2 (e2 & Ht2 & Hp2)]. split; [congruence|].
  exists (e1 ++ e2). split.
  - now rewrite Ht2, Ht1, app_assoc.
  - apply Forall_app. split; [assumption|]. now rewrite <- Hm1.
Qed.

Lemma wait_Poll_grows (P : Mem -> Event -> Prop) interval timeout
    (condition : Action Mem W (bool * error)) :
  (forall s, grows P s (snd (condition s))) ->
  forall m,
    grows P (fst m) (fst (snd (wait.Poll interval timeout condition m))).
Proof.
  intros H. apply wait_Poll_preserves; auto using grows_refl.
  intros a b c. apply grows_trans.
Qed.

End Grows.

(** ** [WaitUntilDeleted] *)

Section WaitUntilDeletedFacts.
Context {Mem W : Type}.
Variables delFnc getFnc : W -> error * W.

Local Abbreviation tick := (@WaitUntilDeleted_func1 Mem W delFnc getFnc).

(** One tick, written out. *)
Lemma WaitUntilDeleted_func1_run (s : Store Mem W) :
  tick s =
  match delFnc (world s) with
  | (Some msg, w) =>
      ((if strings.Contains msg "object is being deleted" then false
        else strings.Contains msg "not found", None),
       mkStore (mem s) w
         (trace s ++ [DelFnc (Some msg);
                      Infof ("del.err: " ++ msg ++ fmt.newline)%string]))
  | (None, w1) =>
      let (gerr, w2) := getFnc w1 in
      ((match gerr with
        | Some msg => strings.Contains msg "not found"
        | None => false
        end, None),
       mkStore (mem s) w2
         (trace s ++ [DelFnc None;
                      Infof ("del.err: <nil>" ++ fmt.newline)%string;
                      GetFnc gerr;
                      Infof ("get.err: " ++ fmt.v gerr ++ fmt.newline)%string]))
  end.
Proof.
  unfold WaitUntilDeleted_func1, delFnc_call, getFnc_call, log.Infof,
    bind, call, emit, ret.
  destruct (delFnc (world s)) as [[msg|] w]; cbn.
  - rewrite <- app_assoc. cbn.
    destruct (strings.Contains msg "object is being deleted"); [reflexivity|].
    destruct (strings.Contains msg "not found"); reflexivity.
  - destruct (getFnc w) as [[msg|] w2]; cbn;
      repeat rewrite <- app_assoc; cbn; [|reflexivity].
    destruct (strings.Contains msg "not found"); reflexivity.
Qed.

Lemma WaitUntilDeleted_func1_nil (s : Store Mem W) :
  snd (fst (tick s)) = None.
Proof.
  rewrite WaitUntilDeleted_func1_run.
  destruct (delFnc (world s)) as [[msg|] w]; [reflexivity|].
  now destruct (getFnc w).
Qed.

End WaitUntilDeletedFacts.

(** ** The closures of Scale-To-Zero *)

(** Replace a closure by its written-out run and name the client's answer. *)
Ltac run_closure run :=
  rewrite run; cbn zeta;
  match goal with
  | |- context [match ?c with pair _ _ => _ end] =>
      destruct c as [[? ?] ?]
  end.

(** The store is the old one with the listed events appended. *)
Ltac appended :=
  split; [reflexivity|]; eexists; split; [reflexivity|]; repeat constructor.

Section ScaleTicks.
Context {W : Type}.
Variable f : Framework W.

Lemma ScaleSatefulSetDownToZero_func1_run (s : Store StatefulSet.t W) :
  ScaleSatefulSetDownToZero_func1 f s =
  let obj := mem s in
  let '((_, err), w) :=
    StatefulSets_Update (KubeClient f) (StatefulSet.Namespace obj) obj
      (world s) in
  ((match err with
    | Some msg => strings.Contains msg "not found"
    | None => true
    end, None),
   mkStore obj w
     (trace s ++
      [StatefulSetsUpdate (StatefulSet.Namespace obj) obj err;
       Infof ("ScaleSatefulSetDownToZero.err: " ++ fmt.v err
              ++ fmt.newline)%string])).
Proof.
  unfold ScaleSatefulSetDownToZero_func1, StatefulSets_Update_call,
    log.Infof, bind, load, call, emit, ret.
  cbn zeta. destruct (StatefulSets_Update _ _ _ _) as [[res err] w]. cbn.
  rewrite <- app_assoc. cbn.
  destruct err as [msg|]; [|reflexivity].
  destruct (strings.Contains msg "not found"); reflexivity.
Qed.

Lemma ScaleSatefulSetDownToZero_func2_run (s : Store StatefulSet.t W) :
  ScaleSatefulSetDownToZero_func2 f s =
  let obj := mem s in
  let '((result, err), w) :=
    StatefulSets_Get (KubeClient f) (StatefulSet.Namespace obj)
      (StatefulSet.Name obj) (world s) in
  ((match err with
    | Some msg => strings.Contains msg "not found"
    | None =>
        StatefulSetStatus.CurrentReplicas (StatefulSet.Status result) =? 0
    end, None),
   mkStore obj w
     (trace s ++
      [StatefulSetsGet (StatefulSet.Namespace obj) (StatefulSet.Name obj)
         err])).
Proof.
  unfold ScaleSatefulSetDownToZero_func2, StatefulSets_Get_call,
    bind, load, call, emit, ret.
  cbn zeta. destruct (StatefulSets_Get _ _ _ _) as [[res err] w]. cbn.
  destruct err as [msg|].
  - destruct (strings.Contains msg "not found"); reflexivity.
  - destruct (_ =? 0); reflexivity.
Qed.

Lemma ScaleDeploymentDownToZero_func1_run (s : Store Deployment.t W) :
  ScaleDeploymentDownToZero_func1 f s =
  let obj := mem s in
  let '((_, err), w) :=
    Deployments_Update (KubeClient f) (Deployment.Namespace obj) obj
      (world s) in
  ((match err with
    | Some msg => strings.Contains msg "not found"
    | None => true
    end, None),
   mkStore obj w
     (trace s ++
      [DeploymentsUpdate (Deployment.Namespace obj) obj err;
       Infof ("ScaleDeploymentDownToZero.err: " ++ fmt.v err
              ++ fmt.newline)%string])).
Proof.
  unfold ScaleDeploymentDownToZero_func1, Deployments_Update_call,
    log.Infof, bind, load, call, emit, ret.
  cbn zeta. destruct (Deployments_Update _ _ _ _) as [[res err] w]. cbn.
  rewrite <- app_assoc. cbn.
  destruct err as [msg|]; [|reflexivity].
  destruct (strings.Contains msg "not found"); reflexivity.
Qed.

Lemma ScaleDeploymentDownToZero_func2_run (s : Store Deployment.t W) :
  ScaleDeploymentDownToZero_func2 f s =
  let obj := mem s in
  let '((result, err), w) :=
    Deployments_Get (KubeClient f) (Deployment.Namespace obj)
      (Deployment.Name obj) (world s) in
  ((match err with
    | Some msg => strings.Contains msg "not found"
    | None =>
        DeploymentStatus.AvailableReplicas (Deployment.Status result) =? 0
    end, None),
   mkStore obj w
     (trace s ++
      [DeploymentsGet (Deployment.Namespace obj) (Deployment.Name obj) err])).
Proof.
  unfold ScaleDeploymentDownToZero_func2, Deployments_Get_call,
    bind, load, call, emit, ret.
  cbn zeta. destruct (Deployments_Get _ _ _ _) as [[res err] w]. cbn.
  destruct err as [msg|].
  - destruct (strings.Contains msg "not found"); reflexivity.
  - destruct (_ =? 0); reflexivity.
Qed.

(** None of the four closures returns an error. *)
Lemma ScaleSatefulSetDownToZero_func1_nil s :
  snd (fst (ScaleSatefulSetDownToZero_func1 f s)) = None.
Proof. run_closure ScaleSatefulSetDownToZero_func1_run. reflexivity. Qed.

Lemma ScaleSatefulSetDownToZero_func2_nil s :
  snd (fst (ScaleSatefulSetDownToZero_func2 f s)) = None.
Proof. run_closure ScaleSatefulSetDownToZero_func2_run. reflexivity. Qed.

Lemma ScaleDeploymentDownToZero_func1_nil s :
  snd (fst (ScaleDeploymentDownToZero_func1 f s)) = None.
Proof. run_closure ScaleDeploymentDownToZero_func1_run. reflexivity. Qed.

Lemma ScaleDeploymentDownToZero_func2_nil s :
  snd (fst (ScaleDeploymentDownToZero_func2 f s)) = None.
Proof. run_closure ScaleDeploymentDownToZero_func2_run. reflexivity. Qed.

(** The update closures leave the pointee alone, read no status, and
    submit the pointee itself. *)
Lemma ScaleSatefulSetDownToZero_func1_grows s :
  grows (fun obj e => is_read e = false /\ submits_statefulset obj e)
    s (snd (ScaleSatefulSetDownToZero_func1 f s)).
Proof. run_closure ScaleSatefulSetDownToZero_func1_run. appended. Qed.

Lemma ScaleDeploymentDownToZero_func1_grows s :
  grows (fun obj e => is_read e = false /\ submits_deployment obj e)
    s (snd (ScaleDeploymentDownToZero_func1 f s)).
Proof. run_closure ScaleDeploymentDownToZero_func1_run. appended. Qed.

(** The observe closures leave the pointee alone and submit nothing. *)
Lemma ScaleSatefulSetDownToZero_func2_grows s :
  grows submits_statefulset s (snd (ScaleSatefulSetDownToZero_func2 f s)).
Proof. run_closure ScaleSatefulSetDownToZero_func2_run. appended. Qed.

Lemma ScaleDeploymentDownToZero_func2_grows s :
  grows submits_deployment s (snd (ScaleDeploymentDownToZero_func2 f s)).
Proof. run_closure ScaleDeploymentDownToZero_func2_run. appended. Qed.

End ScaleTicks.

(** ** The two phases of Scale-To-Zero *)

Section ScaleFacts.
Context {W : Type}.
Variable f : Framework W.

Lemma ScaleSatefulSetDownToZero_unfold s t :
  ScaleSatefulSetDownToZero f (s, t) =
  let (r1, m1) :=
    wait.Poll PollInterval PoolDeletionTimeout
      (ScaleSatefulSetDownToZero_func1 f) (zeroed_statefulset s, t) in
  match r1 with
  | Success =>
      wait.Poll PollInterval PoolDeletionTimeout
        (ScaleSatefulSetDownToZero_func2 f) m1
  | _ => (r1, m1)
  end.
Proof.
  unfold ScaleSatefulSetDownToZero, bind, lift, modify, ret. cbn [fst snd].
  fold (zeroed_statefulset s).
  destruct (wait.Poll _ _ _ _) as [[| |e] m1]; reflexivity.
Qed.

Lemma ScaleDeploymentDownToZero_unfold s t :
  ScaleDeploymentDownToZero f (s, t) =
  let (r1, m1) :=
    wait.Poll PollInterval PoolDeletionTimeout
      (ScaleDeploymentDownToZero_func1 f) (zeroed_deployment s, t) in
  match r1 with
  | Success =>
      wait.Poll PollInterval PoolDeletionTimeout
        (ScaleDeploymentDownToZero_func2 f) m1
  | _ => (r1, m1)
  end.
Proof.
  unfold ScaleDeploymentDownToZero, bind, lift, modify, ret. cbn [fst snd].
  fold (zeroed_deployment s).
  destruct (wait.Poll _ _ _ _) as [[| |e] m1]; reflexivity.
Qed.

End ScaleFacts.

Lemma grows_weaken {Mem W : Type} (P Q : Mem -> Event -> Prop)
    (s s' : Store Mem W) :
  (forall obj e, P obj e -> Q obj e) -> grows P s s' -> grows Q s s'.
Proof.
  intros HPQ [Hm (evs & Ht & Hall)]. split; [assumption|].
  exists evs. split; [assumption|].
  eapply Forall_impl; [|exact Hall]. apply HPQ.
Qed.
(** What the whole operation does to the store: the pointee is the
    caller's object with its desired count zeroed, and every update
    submitted carried exactly that object. *)
Lemma ScaleSatefulSetDownToZero_store {W : Type} (f : Framework W) m :
  let s' := fst (snd (ScaleSatefulSetDownToZero f m)) in
  mem s' = StatefulSet.set_Spec_Replicas (Some 0) (mem (fst m))
  /\ exists evs,
       trace s' = trace (fst m) ++ evs
       /\ Forall (submits_statefulset
                    (StatefulSet.set_Spec_Replicas (Some 0) (mem (fst m)))) evs.
Proof.
  destruct m as [s t]. rewrite ScaleSatefulSetDownToZero_unfold.
  assert (Hg1 : forall s0, grows submits_statefulset s0
                  (snd (ScaleSatefulSetDownToZero_func1 f s0))).
  { intros s0. eapply grows_weaken;
      [|apply ScaleSatefulSetDownToZero_func1_grows]. now intros ? ? [_ ?]. }
  pose proof (wait_Poll_grows _ PollInterval PoolDeletionTimeout _ Hg1
                (zeroed_statefulset s, t)) as H1.
  destruct (wait.Poll _ _ _ _) as [r1 m1]. cbn [fst snd] in H1.
  assert (H2 : grows submits_statefulset (zeroed_statefulset s)
                 (fst (snd (match r1 with
                            | Success =>
                                wait.Poll PollInterval PoolDeletionTimeout
                                  (ScaleSatefulSetDownToZero_func2 f) m1
                            | _ => (r1, m1)
                            end)))).
  { destruct r1; try exact H1.
    eapply grows_trans; [exact H1|].
    apply wait_Poll_grows, ScaleSatefulSetDownToZero_func2_grows. }
  exact H2.
Qed.

Lemma ScaleDeploymentDownToZero_store {W : Type} (f : Framework W) m :
  let s' := fst (snd (ScaleDeploymentDownToZero f m)) in
  mem s' = Deployment.set_Spec_Replicas (Some 0) (mem (fst m))
  /\ exists evs,
       trace s' = trace (fst m) ++ evs
       /\ Forall (submits_deployment
                    (Deployment.set_Spec_Replicas (Some 0) (mem (fst m)))) evs.
Proof.
  destruct m as [s t]. rewrite ScaleDeploymentDownToZero_unfold.
  assert (Hg1 : forall s0, grows submits_deployment s0
                  (snd (ScaleDeploymentDownToZero_func1 f s0))).
  { intros s0. eapply grows_weaken;
      [|apply ScaleDeploymentDownToZero_func1_grows]. now intros ? ? [_ ?]. }
  pose proof (wait_Poll_grows _ PollInterval PoolDeletionTimeout _ Hg1
                (zeroed_deployment s, t)) as H1.
  destruct (wait.Poll _ _ _ _) as [r1 m1]. cbn [fst snd] in H1.
  assert (H2 : grows submits_deployment (zeroed_deployment s)
                 (fst (snd (match r1 with
                            | Success =>
                                wait.Poll PollInterval PoolDeletionTimeout
                                  (ScaleDeploymentDownToZero_func2 f) m1
                            | _ => (r1, m1)
                            end)))).
  { destruct r1; try exact H1.
    eapply grows_trans; [exact H1|].
    apply wait_Poll_grows, ScaleDeploymentDownToZero_func2_grows. }
  exact H2.
Qed.

Lemma mutate_done (uerr : error) :
  match uerr with
  | Some msg => strings.Contains msg "not found"
  | None => true
  end = is_nil uerr || not_found uerr.
Proof. now destruct uerr. Qed.

Lemma outcome_mutate (uerr : error) :
  wait.outcome (is_nil uerr || not_found uerr, None) = Converged <->
  uerr = None \/ not_found uerr = true.
Proof.
  destruct uerr as [msg|]; cbn.
  - destruct (strings.Contains msg "not found"); cbn;
      intuition discriminate.
  - intuition.
Qed.

Lemma pair_fst {A B : Type} (p : A * B) (a : A) :
  fst p = a -> p = (a, snd p).
Proof. destruct p. cbn. congruence. Qed.

Lemma outcome_done (done : bool) :
  wait.outcome (done, None) = if done then Converged else Pending.
Proof. now destruct done. Qed.

(** * The claims *)

(** C4.  The poller invokes its step at once, at elapsed time zero, and then
    once per interval: a run makes [n + 1] invocations, at the instants
    [now], [now + interval], ..., [now + n * interval], each on the store
    the previous one left.  All but the last answer [Pending], and every
    boundary at which a further invocation was made lies within the
    timeout.  The run ends [Success] or [Fatal] exactly when the last
    invocation answers [Converged] or [Failed], and [TimedOut] when it
    answers [Pending] and the next boundary would exceed the timeout. *)
Theorem Poll_schedule {S : Type} (spec : PollSpec) (step : St S PollOutcome)
    (s : S) (t : Timer) :
  0 < Poller.interval spec ->
  exists n : nat,
    let '(r, (s', t')) := Poller.Poll spec step (s, t) in
    ticks t' =
      ticks t ++ boundaries (now t) (Poller.interval spec) (Datatypes.S n)
    /\ s' = after step (Datatypes.S n) s
    /\ (forall k, (k < n)%nat -> fst (step (after step k s)) = Pending)
    /\ (forall k, (1 <= k <= n)%nat ->
          Z.of_nat k * Poller.interval spec <= Poller.timeout spec)
    /\ match r with
       | Success =>
           fst (step (after step n s)) = Converged
           /\ now t' = now t + Z.of_nat n * Poller.interval spec
       | Fatal reason =>
           fst (step (after step n s)) = Failed reason
           /\ now t' = now t + Z.of_nat n * Poller.interval spec
       | TimedOut =>
           fst (step (after step n s)) = Pending
           /\ Poller.timeout spec < (Z.of_nat n + 1) * Poller.interval spec
           /\ now t' = now t + (Z.of_nat n + 1) * Poller.interval spec
       end.
Proof.
  intros Hi. unfold Poller.Poll. cbn [snd].
  destruct (poll_loop_schedule spec step
              (Z.to_nat (Poller.timeout spec / Poller.interval spec))
              (now t) s t Hi) as [n Hn].
  { pose proof (fuel_enough spec Hi). lia. }
  exists n.
  destruct (Poller.poll_loop _ _ _ _ _) as [r [s' t']].
  destruct Hn as (H1 & H2 & H3 & H4 & H5).
  repeat split; auto.
  - intros k Hk. specialize (H4 k Hk). lia.
  - destruct r; intuition lia.
Qed.

(** Three seconds of budget at one tick per second: four invocations,
    the last at the third second, and the timeout at the fourth. *)
Example Poll_one_in_three :
  Poller.Poll one_in_three counting (0%nat, mkTimer 0 [])
  = (TimedOut, (4%nat, mkTimer 4 [0; 1; 2; 3])).
Proof. reflexivity. Qed.

(** Three seconds of budget at one tick per second. *)
Lemma Poll_schedule_witness :
  0 < Poller.interval one_in_three
  /\ exists n : nat,
       let '(r, (s', t')) :=
         Poller.Poll one_in_three counting (0%nat, mkTimer 0 []) in
       ticks t' = [] ++ boundaries 0 1 (Datatypes.S n)
       /\ s' = after counting (Datatypes.S n) 0%nat
       /\ (forall k, (k < n)%nat ->
             fst (counting (after counting k 0%nat)) = Pending)
       /\ (forall k, (1 <= k <= n)%nat -> Z.of_nat k * 1 <= 3)
       /\ match r with
          | Success =>
              fst (counting (after counting n 0%nat)) = Converged
              /\ now t' = 0 + Z.of_nat n * 1
          | Fatal reason =>
              fst (counting (after counting n 0%nat)) = Failed reason
              /\ now t' = 0 + Z.of_nat n * 1
          | TimedOut =>
              fst (counting (after counting n 0%nat)) = Pending
              /\ 3 < (Z.of_nat n + 1) * 1
              /\ now t' = 0 + (Z.of_nat n + 1) * 1
          end.
Proof.
  assert (Hi : 0 < Poller.interval one_in_three) by (cbn; lia).
  split; [exact Hi|].
  exact (Poll_schedule one_in_three counting 0%nat (mkTimer 0 []) Hi).
Defined.

(** C1.  Whatever the delete and get callbacks return, the closure of
    [WaitUntilDeleted] never returns an error, and the operation ends
    either with success or with the timeout, the latter only after more
    than [PoolDeletionTimeout] has been slept: no callback error ever
    becomes a fatal result. *)
Theorem WaitUntilDeleted_never_fatal {Mem W : Type}
    (delFnc getFnc : W -> error * W) :
  (forall s : Store Mem W,
     snd (fst (WaitUntilDeleted_func1 delFnc getFnc s)) = None)
  /\ (forall m : Machine (Store Mem W),
        let (r, m') := WaitUntilDeleted delFnc getFnc m in
        r = Success
        \/ (r = TimedOut /\ PoolDeletionTimeout < now (snd m') - now (snd m))).
Proof.
  split; [apply WaitUntilDeleted_func1_nil|].
  intros m. unfold WaitUntilDeleted.
  pose proof (wait_Poll_no_error PollInterval PoolDeletionTimeout _
                (WaitUntilDeleted_func1_nil delFnc getFnc) m) as Hr.
  pose proof (wait_Poll_budget PollInterval PoolDeletionTimeout
                (WaitUntilDeleted_func1 delFnc getFnc) eq_refl m) as Hb.
  destruct (wait.Poll _ _ _ m) as [r m']. cbn [fst snd] in *.
  destruct Hr as [->| ->]; auto.
Qed.

(** Callbacks that fail with an unclassified error on every call run the
    operation into the timeout. *)
Lemma WaitUntilDeleted_transient {Mem W : Type}
    (delFnc getFnc : W -> error * W) :
  (forall w, exists msg w',
     delFnc w = (Some msg, w')
     /\ strings.Contains msg "not found" = false) ->
  forall m : Machine (Store Mem W),
    fst (WaitUntilDeleted delFnc getFnc m) = TimedOut.
Proof.
  intros Hdel m. unfold WaitUntilDeleted, wait.Poll, Poller.Poll.
  apply poll_loop_pending. intros s.
  rewrite WaitUntilDeleted_func1_run.
  destruct (Hdel (world s)) as (msg & w' & -> & Hnf). cbn.
  rewrite Hnf. now destruct (strings.Contains msg "object is being deleted").
Qed.

(** C2.  A tick whose delete call returns an error never calls get: the
    store afterwards holds the remote state the delete left and the trace
    gained only the delete call and its log line.  The tick is pending
    when the message contains "object is being deleted"; otherwise it has
    converged, and the operation succeeds, when the message contains
    "not found"; otherwise it is pending. *)
Theorem WaitUntilDeleted_delete_error {Mem W : Type}
    (delFnc getFnc : W -> error * W) (s : Store Mem W) (msg : string) (w : W) :
  delFnc (world s) = (Some msg, w) ->
  let tick := WaitUntilDeleted_func1 delFnc getFnc s in
  snd tick =
    mkStore (mem s) w
      (trace s ++ [DelFnc (Some msg);
                   Infof ("del.err: " ++ msg ++ fmt.newline)%string])
  /\ (strings.Contains msg "object is being deleted" = true ->
      wait.outcome (fst tick) = Pending)
  /\ (strings.Contains msg "object is being deleted" = false ->
      strings.Contains msg "not found" = true ->
      wait.outcome (fst tick) = Converged
      /\ forall t, fst (WaitUntilDeleted delFnc getFnc (s, t)) = Success)
  /\ (strings.Contains msg "object is being deleted" = false ->
      strings.Contains msg "not found" = false ->
      wait.outcome (fst tick) = Pending).
Proof.
  intros Hdel tick.
  assert (Htick : tick =
    ((if strings.Contains msg "object is being deleted" then false
      else strings.Contains msg "not found", None),
     mkStore (mem s) w
       (trace s ++ [DelFnc (Some msg);
                    Infof ("del.err: " ++ msg ++ fmt.newline)%string]))).
  { subst tick. now rewrite WaitUntilDeleted_func1_run, Hdel. }
  split; [now rewrite Htick|].
  split; [intros Hbd; now rewrite Htick, Hbd|].
  split; [|intros Hbd Hnf; now rewrite Htick, Hbd, Hnf].
  intros Hbd Hnf. split; [now rewrite Htick, Hbd, Hnf|].
  intros t. unfold WaitUntilDeleted.
  erewrite wait_Poll_done; [reflexivity|].
  fold tick. rewrite Htick, Hbd, Hnf. reflexivity.
Qed.

Lemma WaitUntilDeleted_delete_error_witness :
  always (Some "pods x not found") (world store0)
    = (Some "pods x not found", 1%nat)
  /\ fst (WaitUntilDeleted (always (Some "pods x not found")) (always (None : error))
            (store0, mkTimer 0 [])) = Success.
Proof.
  split; [reflexivity|].
  apply (WaitUntilDeleted_delete_error
           (always (Some "pods x not found")) (always (None : error))
           store0 "pods x not found" 1%nat);
    reflexivity.
Defined.

(** C3.  A tick whose delete call returns nil calls get in the same tick,
    on the remote state the delete left.  The tick has converged exactly
    when get returns an error whose message contains "not found"; in every
    other case, a nil error included, it is pending. *)
Theorem WaitUntilDeleted_delete_accepted {Mem W : Type}
    (delFnc getFnc : W -> error * W) (s : Store Mem W)
    (w1 : W) (gerr : error) (w2 : W) :
  delFnc (world s) = (None, w1) ->
  getFnc w1 = (gerr, w2) ->
  let tick := WaitUntilDeleted_func1 delFnc getFnc s in
  snd tick =
    mkStore (mem s) w2
      (trace s ++ [DelFnc None;
                   Infof ("del.err: <nil>" ++ fmt.newline)%string;
                   GetFnc gerr;
                   Infof ("get.err: " ++ fmt.v gerr ++ fmt.newline)%string])
  /\ (wait.outcome (fst tick) = Converged <->
      exists msg, gerr = Some msg /\ strings.Contains msg "not found" = true)
  /\ (wait.outcome (fst tick) = Converged
      \/ wait.outcome (fst tick) = Pending).
Proof.
  intros Hdel Hget tick. subst tick.
  rewrite WaitUntilDeleted_func1_run, Hdel, Hget. cbn [fst snd].
  split; [reflexivity|].
  destruct gerr as [msg|]; cbn.
  - destruct (strings.Contains msg "not found") eqn:Hnf; cbn; split; auto.
    + split; [|reflexivity]. intros _. now exists msg.
    + split; [discriminate|]. intros (msg' & [= <-] & H). congruence.
  - split; auto. split; [discriminate|]. now intros (msg' & [=] & _).
Qed.

Lemma WaitUntilDeleted_delete_accepted_witness :
  always (None : error) (world store0) = (None, 1%nat)
  /\ always (Some "pods x not found") 1%nat
       = (Some "pods x not found", 2%nat)
  /\ wait.outcome
       (fst (WaitUntilDeleted_func1 (always (None : error))
               (always (Some "pods x not found")) store0)) = Converged.
Proof.
  split; [reflexivity|]. split; [reflexivity|].
  apply (WaitUntilDeleted_delete_accepted
           (always (None : error)) (always (Some "pods x not found")) store0
           1%nat (Some "pods x not found") 2%nat eq_refl eq_refl).
  exists "pods x not found". split; reflexivity.
Defined.

(** C10.  "object is being deleted" is tested before "not found": a delete
    error whose message contains both makes the tick pending. *)
Theorem WaitUntilDeleted_being_deleted_first {Mem W : Type}
    (delFnc getFnc : W -> error * W) (s : Store Mem W) (msg : string) (w : W) :
  delFnc (world s) = (Some msg, w) ->
  strings.Contains msg "object is being deleted" = true ->
  strings.Contains msg "not found" = true ->
  fst (WaitUntilDeleted_func1 delFnc getFnc s) = (false, None)
  /\ wait.outcome (fst (WaitUntilDeleted_func1 delFnc getFnc s)) = Pending.
Proof.
  intros Hdel Hbd Hnf.
  rewrite WaitUntilDeleted_func1_run, Hdel. cbn [fst]. now rewrite Hbd.
Qed.

Lemma WaitUntilDeleted_being_deleted_first_witness :
  fst (WaitUntilDeleted_func1
         (always (Some "object is being deleted: finalizer not found"))
         (always (None : error)) store0) = (false, None)
  /\ wait.outcome
       (fst (WaitUntilDeleted_func1
               (always (Some "object is being deleted: finalizer not found"))
               (always (None : error)) store0)) = Pending.
Proof.
  apply (WaitUntilDeleted_being_deleted_first
           (always (Some "object is being deleted: finalizer not found"))
           (always (None : error)) store0
           "object is being deleted: finalizer not found" 1%nat);
    reflexivity.
Defined.

(** C5.  The observe phase is entered only from a mutate phase that
    reported success, and starts on the state that phase left.  The mutate
    phase issues no status read; when it ends with an error, that error
    is the result of the whole operation, which therefore reads no status
    at all. *)
Theorem ScaleToZero_observe_after_mutate {W : Type} (f : Framework W) :
  (forall (s : Store StatefulSet.t W) (t : Timer),
     let (r1, m1) :=
       wait.Poll PollInterval PoolDeletionTimeout
         (ScaleSatefulSetDownToZero_func1 f) (zeroed_statefulset s, t) in
     (exists evs,
        trace (fst m1) = trace s ++ evs
        /\ Forall (fun e => is_read e = false) evs)
     /\ match r1 with
        | Success =>
            ScaleSatefulSetDownToZero f (s, t) =
            wait.Poll PollInterval PoolDeletionTimeout
              (ScaleSatefulSetDownToZero_func2 f) m1
        | _ => ScaleSatefulSetDownToZero f (s, t) = (r1, m1)
        end)
  /\ (forall (s : Store Deployment.t W) (t : Timer),
        let (r1, m1) :=
          wait.Poll PollInterval PoolDeletionTimeout
            (ScaleDeploymentDownToZero_func1 f) (zeroed_deployment s, t) in
        (exists evs,
           trace (fst m1) = trace s ++ evs
           /\ Forall (fun e => is_read e = false) evs)
        /\ match r1 with
           | Success =>
               ScaleDeploymentDownToZero f (s, t) =
               wait.Poll PollInterval PoolDeletionTimeout
                 (ScaleDeploymentDownToZero_func2 f) m1
           | _ => ScaleDeploymentDownToZero f (s, t) = (r1, m1)
           end).
Proof.
  split; intros s t.
  - pose proof (wait_Poll_grows _ PollInterval PoolDeletionTimeout _
                  (ScaleSatefulSetDownToZero_func1_grows f)
                  (zeroed_statefulset s, t)) as Hg.
    rewrite ScaleSatefulSetDownToZero_unfold.
    destruct (wait.Poll _ _ _ _) as [r1 m1]. cbn [fst snd] in Hg.
    destruct Hg as [_ (evs & Ht & Hall)]. split.
    + exists evs. split; [exact Ht|].
      eapply Forall_impl; [|exact Hall]. now intros e [He _].
    + destruct r1; reflexivity.
  - pose proof (wait_Poll_grows _ PollInterval PoolDeletionTimeout _
                  (ScaleDeploymentDownToZero_func1_grows f)
                  (zeroed_deployment s, t)) as Hg.
    rewrite ScaleDeploymentDownToZero_unfold.
    destruct (wait.Poll _ _ _ _) as [r1 m1]. cbn [fst snd] in Hg.
    destruct Hg as [_ (evs & Ht & Hall)]. split.
    + exists evs. split; [exact Ht|].
      eapply Forall_impl; [|exact Hall]. now intros e [He _].
    + destruct r1; reflexivity.
Qed.

(** On a cluster that rejects every call the operation times out in its
    mutate phase and reads nothing. *)
Example ScaleSatefulSetDownToZero_failing :
  let (r, m) := ScaleSatefulSetDownToZero failing (boot (statefulset_of 3 3)) in
  r = TimedOut
  /\ forallb (fun e => negb (is_read e)) (trace (fst m)) = true
  /\ now (snd m) = 65 * time.Second.
Proof. vm_compute. repeat split. Qed.

(** Reads that observe 3, 3, 3, 0 replicas: the mutate phase takes one
    tick, the observe phase four, and the operation succeeds after fifteen
    seconds. *)
Example ScaleSatefulSetDownToZero_draining :
  let (r, m) :=
    ScaleSatefulSetDownToZero (draining [3; 3; 3; 0])
      (boot (statefulset_of 3 3)) in
  r = Success
  /\ now (snd m) = 15 * time.Second
  /\ ticks (snd m) =
       [0; 0; 5 * time.Second; 10 * time.Second; 15 * time.Second].
Proof. vm_compute. repeat split. Qed.

(** C6.  In either variant a mutate tick never returns an error.  It has
    converged, and a phase started there succeeds at once, when the update
    returns nil or an error whose message contains "not found"; on any
    other error it is pending.  The phase as a whole ends in success or in
    the timeout, and every update the operation submits carries a desired
    replica count of zero. *)
Theorem ScaleToZero_mutate_tick {W : Type} (f : Framework W) :
  (forall (s : Store StatefulSet.t W) result uerr w,
     StatefulSets_Update (KubeClient f) (StatefulSet.Namespace (mem s))
       (mem s) (world s) = ((result, uerr), w) ->
     let tick := ScaleSatefulSetDownToZero_func1 f s in
     snd (fst tick) = None
     /\ (wait.outcome (fst tick) = Converged <->
         uerr = None \/ not_found uerr = true)
     /\ (wait.outcome (fst tick) = Converged ->
         forall t,
           fst (wait.Poll PollInterval PoolDeletionTimeout
                  (ScaleSatefulSetDownToZero_func1 f) (s, t)) = Success)
     /\ (wait.outcome (fst tick) <> Converged ->
         wait.outcome (fst tick) = Pending))
  /\ (forall (s : Store Deployment.t W) result uerr w,
        Deployments_Update (KubeClient f) (Deployment.Namespace (mem s))
          (mem s) (world s) = ((result, uerr), w) ->
        let tick := ScaleDeploymentDownToZero_func1 f s in
        snd (fst tick) = None
        /\ (wait.outcome (fst tick) = Converged <->
            uerr = None \/ not_found uerr = true)
        /\ (wait.outcome (fst tick) = Converged ->
            forall t,
              fst (wait.Poll PollInterval PoolDeletionTimeout
                     (ScaleDeploymentDownToZero_func1 f) (s, t)) = Success)
        /\ (wait.outcome (fst tick) <> Converged ->
            wait.outcome (fst tick) = Pending))
  /\ (forall m,
        let r := fst (wait.Poll PollInterval PoolDeletionTimeout
                        (ScaleSatefulSetDownToZero_func1 f) m) in
        r = Success \/ r = TimedOut)
  /\ (forall m,
        let r := fst (wait.Poll PollInterval PoolDeletionTimeout
                        (ScaleDeploymentDownToZero_func1 f) m) in
        r = Success \/ r = TimedOut)
  /\ (forall m, exists evs,
        trace (fst (snd (ScaleSatefulSetDownToZero f m)))
          = trace (fst m) ++ evs
        /\ Forall submits_zero evs)
  /\ (forall m, exists evs,
        trace (fst (snd (ScaleDeploymentDownToZero f m)))
          = trace (fst m) ++ evs
        /\ Forall submits_zero evs).
Proof.
  split; [|split; [|split; [|split; [|split]]]].
  - intros s result uerr w Hup tick.
    pose proof (ScaleSatefulSetDownToZero_func1_run f s) as Hrun.
    cbn zeta in Hrun. rewrite Hup in Hrun. fold tick in Hrun.
    rewrite (mutate_done uerr) in Hrun.
    split; [now rewrite Hrun|].
    split; [rewrite Hrun; apply outcome_mutate|].
    split.
    + intros Hc t. erewrite wait_Poll_done; [reflexivity|].
      fold tick. rewrite Hrun in Hc |- *. cbn [fst] in Hc.
      now destruct (is_nil uerr || not_found uerr).
    + rewrite Hrun. cbn [fst].
      now destruct (is_nil uerr || not_found uerr).
  - intros s result uerr w Hup tick.
    pose proof (ScaleDeploymentDownToZero_func1_run f s) as Hrun.
    cbn zeta in Hrun. rewrite Hup in Hrun. fold tick in Hrun.
    rewrite (mutate_done uerr) in Hrun.
    split; [now rewrite Hrun|].
    split; [rewrite Hrun; apply outcome_mutate|].
    split.
    + intros Hc t. erewrite wait_Poll_done; [reflexivity|].
      fold tick. rewrite Hrun in Hc |- *. cbn [fst] in Hc.
      now destruct (is_nil uerr || not_found uerr).
    + rewrite Hrun. cbn [fst].
      now destruct (is_nil uerr || not_found uerr).
  - intros m. apply wait_Poll_no_error, ScaleSatefulSetDownToZero_func1_nil.
  - intros m. apply wait_Poll_no_error, ScaleDeploymentDownToZero_func1_nil.
  - intros m. destruct (ScaleSatefulSetDownToZero_store f m)
      as [_ (evs & Ht & Hall)].
    exists evs. split; [exact Ht|].
    eapply Forall_impl; [|exact Hall].
    intros [] He; cbn in He |- *; subst; auto; contradiction.
  - intros m. destruct (ScaleDeploymentDownToZero_store f m)
      as [_ (evs & Ht & Hall)].
    exists evs. split; [exact Ht|].
    eapply Forall_impl; [|exact Hall].
    intros [] He; cbn in He |- *; subst; auto; contradiction.
Qed.

Lemma ScaleToZero_mutate_tick_witness :
  StatefulSets_Update (KubeClient gone) "default" (statefulset_of 0 3) 0%nat
    = ((statefulset_of 0 3, Some "statefulsets.apps not found"), 1%nat)
  /\ wait.outcome
       (fst (ScaleSatefulSetDownToZero_func1 gone
               (mkStore (statefulset_of 0 3) 0%nat []))) = Converged.
Proof.
  split; [reflexivity|].
  destruct (ScaleToZero_mutate_tick gone) as [H _].
  apply (H (mkStore (statefulset_of 0 3) 0%nat []) _ _ _ eq_refl).
  right. reflexivity.
Defined.

(** C7, as the code has it.  In either variant an observe tick never
    returns an error.  It has converged exactly when the read returns an
    error whose message contains "not found", or returns nil with an
    observed count of zero; in every other case it is pending.  The
    observed count is [Status.CurrentReplicas] for a StatefulSet and
    [Status.AvailableReplicas] for a Deployment. *)
Theorem ScaleToZero_observe_tick {W : Type} (f : Framework W) :
  (forall (s : Store StatefulSet.t W) result gerr w,
     StatefulSets_Get (KubeClient f) (StatefulSet.Namespace (mem s))
       (StatefulSet.Name (mem s)) (world s) = ((result, gerr), w) ->
     let tick := ScaleSatefulSetDownToZero_func2 f s in
     snd (fst tick) = None
     /\ (wait.outcome (fst tick) = Converged <->
         not_found gerr = true
         \/ (gerr = None
             /\ StatefulSetStatus.CurrentReplicas (StatefulSet.Status result)
                = 0))
     /\ (wait.outcome (fst tick) <> Converged ->
         wait.outcome (fst tick) = Pending))
  /\ (forall (s : Store Deployment.t W) result gerr w,
        Deployments_Get (KubeClient f) (Deployment.Namespace (mem s))
          (Deployment.Name (mem s)) (world s) = ((result, gerr), w) ->
        let tick := ScaleDeploymentDownToZero_func2 f s in
        snd (fst tick) = None
        /\ (wait.outcome (fst tick) = Converged <->
            not_found gerr = true
            \/ (gerr = None
                /\ DeploymentStatus.AvailableReplicas (Deployment.Status result)
                   = 0))
        /\ (wait.outcome (fst tick) <> Converged ->
            wait.outcome (fst tick) = Pending)).
Proof.
  split.
  - intros s result gerr w Hget tick.
    pose proof (ScaleSatefulSetDownToZero_func2_run f s) as Hrun.
    cbn zeta in Hrun. rewrite Hget in Hrun. fold tick in Hrun.
    rewrite Hrun. cbn [fst snd]. rewrite outcome_done.
    split; [reflexivity|]. split.
    + destruct gerr as [msg|]; cbn [not_found].
      * destruct (strings.Contains msg "not found");
          intuition discriminate.
      * destruct (Z.eqb_spec
                    (StatefulSetStatus.CurrentReplicas
                       (StatefulSet.Status result)) 0);
          intuition discriminate.
    + now destruct (match gerr with Some _ => _ | None => _ end).
  - intros s result gerr w Hget tick.
    pose proof (ScaleDeploymentDownToZero_func2_run f s) as Hrun.
    cbn zeta in Hrun. rewrite Hget in Hrun. fold tick in Hrun.
    rewrite Hrun. cbn [fst snd]. rewrite outcome_done.
    split; [reflexivity|]. split.
    + destruct gerr as [msg|]; cbn [not_found].
      * destruct (strings.Contains msg "not found");
          intuition discriminate.
      * destruct (Z.eqb_spec
                    (DeploymentStatus.AvailableReplicas
                       (Deployment.Status result)) 0);
          intuition discriminate.
    + now destruct (match gerr with Some _ => _ | None => _ end).
Qed.

Lemma ScaleToZero_observe_tick_witness :
  Deployments_Get (KubeClient (serving no_statefulset (deployment_of 0 0)))
    "default" "web" 0%nat
    = ((deployment_of 0 0, None), 1%nat)
  /\ wait.outcome
       (fst (ScaleDeploymentDownToZero_func2
               (serving no_statefulset (deployment_of 0 0))
               (mkStore (deployment_of 0 3) 0%nat []))) = Converged.
Proof.
  split; [reflexivity|].
  destruct (ScaleToZero_observe_tick
              (serving no_statefulset (deployment_of 0 0))) as [_ H].
  apply (H (mkStore (deployment_of 0 3) 0%nat []) _ _ _ eq_refl).
  right. split; reflexivity.
Defined.

(** Each variant does compare one field of its own status type. *)
Lemma observed_count_fields (ss : StatefulSet.t) (dep : Deployment.t) :
  (wait.outcome
     (fst (ScaleSatefulSetDownToZero_func2 (serving ss dep)
             (mkStore ss 0%nat []))) = Converged
   <-> StatefulSetStatus.field "CurrentReplicas" (StatefulSet.Status ss)
       = Some 0)
  /\ (wait.outcome
        (fst (ScaleDeploymentDownToZero_func2 (serving ss dep)
                (mkStore dep 0%nat []))) = Converged
      <-> DeploymentStatus.field "AvailableReplicas" (Deployment.Status dep)
          = Some 0).
Proof.
  rewrite ScaleSatefulSetDownToZero_func2_run,
    ScaleDeploymentDownToZero_func2_run.
  cbn -[Z.eqb]. split.
  - destruct (Z.eqb_spec
                (StatefulSetStatus.CurrentReplicas (StatefulSet.Status ss)) 0)
      as [->|Hne]; split; try reflexivity; try discriminate.
    intros [= H]. contradiction.
  - destruct (Z.eqb_spec
                (DeploymentStatus.AvailableReplicas (Deployment.Status dep)) 0)
      as [->|Hne]; split; try reflexivity; try discriminate.
    intros [= H]. contradiction.
Qed.

(** C7, as claimed, fails: no single status field is the observed count
    of both variants.  A field name that decides the StatefulSet variant is
    "CurrentReplicas", and a Deployment status has no such field. *)
Lemma observed_count_is_not_one_field :
  ~ exists name : string,
      forall (ss : StatefulSet.t) (dep : Deployment.t),
        (wait.outcome
           (fst (ScaleSatefulSetDownToZero_func2 (serving ss dep)
                   (mkStore ss 0%nat []))) = Converged
         <-> StatefulSetStatus.field name (StatefulSet.Status ss) = Some 0)
        /\ (wait.outcome
              (fst (ScaleDeploymentDownToZero_func2 (serving ss dep)
                      (mkStore dep 0%nat []))) = Converged
            <-> DeploymentStatus.field name (Deployment.Status dep) = Some 0).
Proof.
  intros [name H].
  destruct (H (statefulset_of 3 0) (deployment_of 3 0)) as [[Hss _] [Hdep _]].
  specialize (Hss eq_refl). specialize (Hdep eq_refl).
  unfold StatefulSetStatus.field in Hss.
  unfold DeploymentStatus.field in Hdep.
  destruct (String.eqb_spec name "CurrentReplicas") as [->|_];
    [|discriminate Hss].
  discriminate Hdep.
Qed.

(** C8.  When the resource a scale operation is given does not exist,
    that is, when every update and every read of that one resource is
    answered with a not-found error, the mutate phase succeeds on its
    first tick, a single invocation with no sleep, and the whole
    operation returns success with one tick per phase and the clock where
    it was.  Nothing is asked of the other resources of the cluster. *)
Theorem ScaleToZero_absent {W : Type} (f : Framework W) :
  (forall (s : Store StatefulSet.t W) (t : Timer),
     statefulset_missing f (StatefulSet.Namespace (mem s))
       (StatefulSet.Name (mem s)) ->
     wait.Poll PollInterval PoolDeletionTimeout
       (ScaleSatefulSetDownToZero_func1 f) (zeroed_statefulset s, t)
     = (Success,
        (snd (ScaleSatefulSetDownToZero_func1 f (zeroed_statefulset s)),
         Poller.mark t))
     /\ let '(r, (s', t')) := ScaleSatefulSetDownToZero f (s, t) in
        r = Success /\ now t' = now t /\ ticks t' = ticks t ++ [now t; now t])
  /\ (forall (s : Store Deployment.t W) (t : Timer),
        deployment_missing f (Deployment.Namespace (mem s))
          (Deployment.Name (mem s)) ->
        wait.Poll PollInterval PoolDeletionTimeout
          (ScaleDeploymentDownToZero_func1 f) (zeroed_deployment s, t)
        = (Success,
           (snd (ScaleDeploymentDownToZero_func1 f (zeroed_deployment s)),
            Poller.mark t))
        /\ let '(r, (s', t')) := ScaleDeploymentDownToZero f (s, t) in
           r = Success /\ now t' = now t
           /\ ticks t' = ticks t ++ [now t; now t]).
Proof.
  split; intros s t [Hup Hget].
  - assert (H1 : fst (ScaleSatefulSetDownToZero_func1 f (zeroed_statefulset s))
                 = (true, None)).
    { rewrite ScaleSatefulSetDownToZero_func1_run. cbn zeta.
      specialize (Hup (mem (zeroed_statefulset s))
                    (world (zeroed_statefulset s)) eq_refl).
      change (StatefulSet.Namespace (mem (zeroed_statefulset s)))
        with (StatefulSet.Namespace (mem s)).
      destruct (StatefulSets_Update _ _ _ _) as [[res [msg|]] w];
        cbn in Hup |- *; [now rewrite Hup|discriminate]. }
    assert (Hm : mem (snd (ScaleSatefulSetDownToZero_func1 f
                             (zeroed_statefulset s)))
                 = mem (zeroed_statefulset s))
      by apply ScaleSatefulSetDownToZero_func1_grows.
    assert (H2 : fst (ScaleSatefulSetDownToZero_func2 f
                        (snd (ScaleSatefulSetDownToZero_func1 f
                                (zeroed_statefulset s))))
                 = (true, None)).
    { rewrite ScaleSatefulSetDownToZero_func2_run. cbn zeta. rewrite Hm.
      change (StatefulSet.Namespace (mem (zeroed_statefulset s)))
        with (StatefulSet.Namespace (mem s)).
      change (StatefulSet.Name (mem (zeroed_statefulset s)))
        with (StatefulSet.Name (mem s)).
      match goal with
      | |- context [StatefulSets_Get _ _ _ ?w] => specialize (Hget w)
      end.
      destruct (StatefulSets_Get _ _ _ _) as [[res [msg|]] w];
        cbn in Hget |- *; [now rewrite Hget|discriminate]. }
    rewrite ScaleSatefulSetDownToZero_unfold.
    rewrite (wait_Poll_done _ _ _ (zeroed_statefulset s)
               (snd (ScaleSatefulSetDownToZero_func1 f (zeroed_statefulset s))))
      by apply pair_fst, H1.
    split; [reflexivity|].
    rewrite (wait_Poll_done _ _ _ _
               (snd (ScaleSatefulSetDownToZero_func2 f
                  (snd (ScaleSatefulSetDownToZero_func1 f
                          (zeroed_statefulset s))))))
      by apply pair_fst, H2.
    cbn [Poller.mark now ticks]. rewrite <- app_assoc. auto.
  - assert (H1 : fst (ScaleDeploymentDownToZero_func1 f (zeroed_deployment s))
                 = (true, None)).
    { rewrite ScaleDeploymentDownToZero_func1_run. cbn zeta.
      specialize (Hup (mem (zeroed_deployment s))
                    (world (zeroed_deployment s)) eq_refl).
      change (Deployment.Namespace (mem (zeroed_deployment s)))
        with (Deployment.Namespace (mem s)).
      destruct (Deployments_Update _ _ _ _) as [[res [msg|]] w];
        cbn in Hup |- *; [now rewrite Hup|discriminate]. }
    assert (Hm : mem (snd (ScaleDeploymentDownToZero_func1 f
                             (zeroed_deployment s)))
                 = mem (zeroed_deployment s))
      by apply ScaleDeploymentDownToZero_func1_grows.
    assert (H2 : fst (ScaleDeploymentDownToZero_func2 f
                        (snd (ScaleDeploymentDownToZero_func1 f
                                (zeroed_deployment s))))
                 = (true, None)).
    { rewrite ScaleDeploymentDownToZero_func2_run. cbn zeta. rewrite Hm.
      change (Deployment.Namespace (mem (zeroed_deployment s)))
        with (Deployment.Namespace (mem s)).
      change (Deployment.Name (mem (zeroed_deployment s)))
        with (Deployment.Name (mem s)).
      match goal with
      | |- context [Deployments_Get _ _ _ ?w] => specialize (Hget w)
      end.
      destruct (Deployments_Get _ _ _ _) as [[res [msg|]] w];
        cbn in Hget |- *; [now rewrite Hget|discriminate]. }
    rewrite ScaleDeploymentDownToZero_unfold.
    rewrite (wait_Poll_done _ _ _ (zeroed_deployment s)
               (snd (ScaleDeploymentDownToZero_func1 f (zeroed_deployment s))))
      by apply pair_fst, H1.
    split; [reflexivity|].
    rewrite (wait_Poll_done _ _ _ _
               (snd (ScaleDeploymentDownToZero_func2 f
                  (snd (ScaleDeploymentDownToZero_func1 f
                          (zeroed_deployment s))))))
      by apply pair_fst, H2.
    cbn [Poller.mark now ticks]. rewrite <- app_assoc. auto.
Qed.

Lemma lacking_db : statefulset_missing lacking "default" "db".
Proof.
  split.
  - intros obj w Hname. cbn. now rewrite Hname.
  - intros w. reflexivity.
Qed.

Lemma lacking_web : deployment_missing lacking "default" "web".
Proof.
  split.
  - intros obj w Hname. cbn. now rewrite Hname.
  - intros w. reflexivity.
Qed.

(** Only [default/db] and [default/web] are missing; their neighbours
    exist, and the operations still return at once. *)
Lemma ScaleToZero_absent_witness :
  statefulset_missing lacking "default" "db"
  /\ deployment_missing lacking "default" "web"
  /\ snd (fst (StatefulSets_Get (KubeClient lacking) "default" "cache" 0%nat))
     = None
  /\ fst (ScaleSatefulSetDownToZero lacking (boot (statefulset_of 3 3)))
     = Success
  /\ fst (ScaleDeploymentDownToZero lacking (boot (deployment_of 3 3)))
     = Success.
Proof.
  split; [exact lacking_db|]. split; [exact lacking_web|].
  split; [reflexivity|].
  destruct (ScaleToZero_absent lacking) as [Hss Hdep].
  split.
  - destruct (Hss (mkStore (statefulset_of 3 3) 0%nat []) (mkTimer 0 [])
                lacking_db) as [_ H].
    unfold boot.
    destruct (ScaleSatefulSetDownToZero lacking _) as [r [s' t']]. apply H.
  - destruct (Hdep (mkStore (deployment_of 3 3) 0%nat []) (mkTimer 0 [])
                lacking_web) as [_ H].
    unfold boot.
    destruct (ScaleDeploymentDownToZero lacking _) as [r [s' t']]. apply H.
Defined.

(** C9.  The scale operations assign through their pointer argument:
    when they return, whatever the result, the caller's object is the one
    passed in with its desired replica count set to zero, and nothing
    else in it is changed.  [WaitUntilDeleted] changes no object. *)
Theorem ScaleToZero_writes_replicas {W : Type} (f : Framework W) :
  (forall m,
     mem (fst (snd (ScaleSatefulSetDownToZero f m)))
     = StatefulSet.set_Spec_Replicas (Some 0) (mem (fst m)))
  /\ (forall m,
        mem (fst (snd (ScaleDeploymentDownToZero f m)))
        = Deployment.set_Spec_Replicas (Some 0) (mem (fst m)))
  /\ (forall (Mem : Type) (delFnc getFnc : W -> error * W)
             (m : Machine (Store Mem W)),
        mem (fst (snd (WaitUntilDeleted delFnc getFnc m))) = mem (fst m)).
Proof.
  split; [|split].
  - intros m. apply ScaleSatefulSetDownToZero_store.
  - intros m. apply ScaleDeploymentDownToZero_store.
  - intros Mem delFnc getFnc m. unfold WaitUntilDeleted.
    apply (wait_Poll_grows (fun _ _ => True)).
    intros s. rewrite WaitUntilDeleted_func1_run.
    destruct (delFnc (world s)) as [[msg|] w].
    + appended.
    + destruct (getFnc w) as [gerr w2]. appended.
Qed.

(** C9, as claimed, fails: a StatefulSet passed in with three desired
    replicas comes back with zero. *)
Lemma ScaleSatefulSetDownToZero_mutates_argument :
  let before := statefulset_of 3 3 in
  let after_call :=
    mem (fst (snd (ScaleSatefulSetDownToZero gone (boot before)))) in
  StatefulSetSpec.Replicas (StatefulSet.Spec before) = Some 3
  /\ StatefulSetSpec.Replicas (StatefulSet.Spec after_call) = Some 0
  /\ after_call <> before.
Proof. vm_compute. repeat split. discriminate. Qed.

(** * Environment lookup *)

(** ** Cutting at the first "=" *)

Lemma prefix_eq_sign (c : ascii) (s : string) :
  String.prefix "=" (String c s) = Ascii.eqb "=" c.
Proof.
  cbn [String.prefix]. destruct (ascii_dec "=" c) as [<-|Hne].
  - rewrite Ascii.eqb_refl. now destruct s.
  - destruct (Ascii.eqb_spec "=" c); [contradiction|reflexivity].
Qed.

Lemma Contains_eq_sign (c : ascii) (s : string) :
  strings.Contains (String c s) "=" = Ascii.eqb "=" c || strings.Contains s "=".
Proof. cbn [strings.Contains]. now rewrite prefix_eq_sign. Qed.

Lemma Contains_nil_eq_sign : strings.Contains "" "=" = false.
Proof. reflexivity. Qed.

Lemma append_nil (s : string) : (EmptyString ++ s)%string = s.
Proof. reflexivity. Qed.

Lemma append_cons (c : ascii) (s t : string) :
  (String c s ++ t)%string = String c (s ++ t).
Proof. reflexivity. Qed.

Lemma length_append (s t : string) :
  String.length (s ++ t) = (String.length s + String.length t)%nat.
Proof.
  induction s as [|c s IH]; [reflexivity|].
  rewrite append_cons. cbn [String.length Nat.add]. now rewrite IH.
Qed.

Lemma Index_nonneg_or_minus_one (s substr : string) :
  strings_Index s substr = -1 \/ 0 <= strings_Index s substr.
Proof.
  induction s as [|c s IH]; cbn [strings_Index].
  - destruct (String.prefix substr ""); lia.
  - destruct (String.prefix substr (String c s)); [lia|].
    destruct (strings_Index s substr <? 0) eqn:H; [lia|].
    apply Z.ltb_ge in H. lia.
Qed.

(** [strings.Contains] is [strings.Index(s, substr) >= 0]. *)
Lemma Contains_Index (s substr : string) :
  strings.Contains s substr = (0 <=? strings_Index s substr).
Proof.
  induction s as [|c s IH]; cbn [strings.Contains strings_Index].
  - destruct (String.prefix substr ""); reflexivity.
  - destruct (String.prefix substr (String c s)); [reflexivity|].
    rewrite IH. cbn [orb].
    destruct (Index_nonneg_or_minus_one s substr) as [->|H]; [reflexivity|].
    destruct (strings_Index s substr <? 0) eqn:Hlt;
      [apply Z.ltb_lt in Hlt; lia|].
    destruct (Z.leb_spec 0 (strings_Index s substr));
      destruct (Z.leb_spec 0 (1 + strings_Index s substr)); lia.
Qed.

Lemma Index_assign (k v : string) :
  strings.Contains k "=" = false ->
  strings_Index (interpolate.assign k v) "=" = len k.
Proof.
  unfold interpolate.assign, len.
  induction k as [|c k IH]; intros Hk.
  - rewrite append_nil, append_cons. cbn [strings_Index].
    now rewrite prefix_eq_sign.
  - rewrite Contains_eq_sign in Hk. apply orb_false_iff in Hk as [Hc Hk].
    rewrite append_cons. cbn [strings_Index]. rewrite prefix_eq_sign, Hc.
    rewrite (IH Hk). cbn [String.length].
    destruct (Z.ltb_spec (Z.of_nat (String.length k)) 0); lia.
Qed.

Lemma slice_to_append (k rest : string) :
  slice_to (len k) (k ++ rest) = k.
Proof.
  unfold slice_to, len. rewrite Nat2Z.id.
  induction k as [|c k IH].
  - rewrite append_nil. now destruct rest.
  - rewrite append_cons. cbn [String.length String.substring].
    now rewrite IH.
Qed.

Lemma substring_all (s : string) :
  String.substring 0 (String.length s) s = s.
Proof. induction s as [|c s IH]; cbn; [reflexivity|now rewrite IH]. Qed.

Lemma slice_from_assign (k v : string) :
  slice_from (len k + len "=") (interpolate.assign k v) = v.
Proof.
  unfold slice_from, len, interpolate.assign.
  replace (Z.to_nat (Z.of_nat (String.length k) + Z.of_nat (String.length "=")))
    with (Datatypes.S (String.length k)) by (cbn; lia).
  induction k as [|c k IH].
  - rewrite append_nil, append_cons, append_nil.
    cbn [String.length String.substring Nat.sub].
    rewrite Nat.sub_0_r. apply substring_all.
  - rewrite append_cons.
    cbn [String.length String.substring Nat.sub] in *.
    exact IH.
Qed.

(** With a limit of two pieces the loop cuts once; on the empty string
    it does not cut at all. *)
Lemma SplitN_two (s : string) :
  strings_SplitN s "=" 2 =
  genSplit_loop (if len s + 1 <? 2 then 0 else 1) s "=".
Proof.
  unfold strings_SplitN.
  change (2 =? 0) with false. change (2 <? 0) with false. cbn [orb].
  destruct (Z.ltb_spec (len s + 1) 2).
  - replace (Z.to_nat (len s + 1 - 1)) with 0%nat; [reflexivity|].
    unfold len in *. lia.
  - reflexivity.
Qed.

(** Cutting [key=value] at the first "=" gives back the key and the
    value, whatever the value contains. *)
Lemma SplitN_assign (k v : string) :
  strings.Contains k "=" = false ->
  strings_SplitN (interpolate.assign k v) "=" 2 = [k; v].
Proof.
  intros Hk. rewrite SplitN_two.
  assert (Hlen : 1 <= len (interpolate.assign k v)).
  { unfold len, interpolate.assign. rewrite !length_append.
    cbn [String.length]. lia. }
  destruct (Z.ltb_spec (len (interpolate.assign k v) + 1) 2); [lia|].
  cbn [genSplit_loop]. rewrite (Index_assign k v Hk).
  destruct (Z.ltb_spec (len k) 0); [unfold len in *; lia|].
  rewrite slice_from_assign. unfold interpolate.assign.
  now rewrite slice_to_append.
Qed.

(** A line without "=" is a single piece. *)
Lemma SplitN_no_eq_sign (l : string) :
  strings.Contains l "=" = false ->
  strings_SplitN l "=" 2 = [l].
Proof.
  intros Hl. rewrite Contains_Index in Hl. apply Z.leb_gt in Hl.
  rewrite SplitN_two.
  destruct (len l + 1 <? 2); cbn [genSplit_loop]; [reflexivity|].
  destruct (Z.ltb_spec (strings_Index l "=") 0); [reflexivity|lia].
Qed.

(** A line with "=" is a key without "=", the sign, and a value. *)
Lemma assign_split (l : string) :
  strings.Contains l "=" = true ->
  exists k v, l = interpolate.assign k v /\ strings.Contains k "=" = false.
Proof.
  induction l as [|c l IH]; [discriminate|].
  rewrite Contains_eq_sign. destruct (Ascii.eqb_spec "=" c) as [<-|Hc].
  - intros _. exists EmptyString, l. split; reflexivity.
  - cbn [orb]. intros Hl. destruct (IH Hl) as (k & v & -> & Hk).
    exists (String c k), v. split; [reflexivity|].
    rewrite Contains_eq_sign, Hk.
    destruct (Ascii.eqb_spec "=" c); [contradiction|reflexivity].
Qed.

(** ** Folding insertions into a map *)

Section FoldInsert.
Variable f : string -> string.

Local Abbreviation smap := (stdpp.gmap.gmap string string).
Local Abbreviation put :=
  (fun (m : smap) (kv : string * string) =>
     stdpp.base.insert (f (fst kv)) (snd kv) m).

(** What is found after the fold was put by an entry or was there before. *)
Lemma fold_insert_sound (l : list (string * string)) : forall (m0 : smap) key v,
  stdpp.base.lookup key (fold_left put l m0) = Some v ->
  (exists k, In (k, v) l /\ f k = key) \/ stdpp.base.lookup key m0 = Some v.
Proof.
  induction l as [|[k0 v0] l IH]; intros m0 key v H; cbn [fold_left] in H.
  - now right.
  - destruct (IH _ _ _ H) as [(k & Hin & Hk)|H0].
    + left. exists k. split; [now right|assumption].
    + cbn [fst snd] in H0. destruct (string_dec (f k0) key) as [He|Hne].
      * rewrite <- He, stdpp.fin_maps.lookup_insert_eq in H0.
        injection H0 as <-. left. exists k0. split; [now left|assumption].
      * rewrite stdpp.fin_maps.lookup_insert_ne in H0 by assumption.
        now right.
Qed.

(** The key of every entry is bound after the fold. *)
Lemma fold_insert_bound (l : list (string * string)) : forall (m0 : smap) key,
  (In key (map (fun kv => f (fst kv)) l)
   \/ stdpp.base.lookup key m0 <> None) ->
  stdpp.base.lookup key (fold_left put l m0) <> None.
Proof.
  induction l as [|[k0 v0] l IH]; intros m0 key H; cbn [fold_left].
  - destruct H as [[]|H]. exact H.
  - apply IH. cbn [map fst In] in H. cbn [fst snd].
    destruct (string_dec (f k0) key) as [He|Hne].
    + right. rewrite <- He, stdpp.fin_maps.lookup_insert_eq. discriminate.
    + destruct H as [[H|H]|H]; [contradiction|now left|right].
      now rewrite stdpp.fin_maps.lookup_insert_ne.
Qed.

(** With distinct keys every entry keeps its own value. *)
Lemma fold_insert_hit (l : list (string * string)) : forall (m0 : smap) k v,
  NoDup (map (fun kv => f (fst kv)) l) ->
  In (k, v) l ->
  stdpp.base.lookup (f k) (fold_left put l m0) = Some v.
Proof.
  induction l as [|[k0 v0] l IH]; intros m0 k v Hnd Hin; [destruct Hin|].
  cbn [map fst] in Hnd. inversion Hnd as [|? ? Hnotin Hnd']; subst.
  cbn [fold_left]. destruct Hin as [[= -> ->]|Hin].
  - destruct (stdpp.base.lookup (f k) (fold_left put l _)) as [v'|] eqn:Hl.
    + destruct (fold_insert_sound _ _ _ _ Hl) as [(k' & Hin' & Hk')|H0].
      * exfalso. apply Hnotin. rewrite <- Hk'.
        apply (in_map (fun kv => f (fst kv)) l (k', v') Hin').
      * cbn [fst snd] in H0.
        rewrite stdpp.fin_maps.lookup_insert_eq in H0. congruence.
    + exfalso. revert Hl. apply fold_insert_bound. right. cbn [fst snd].
      rewrite stdpp.fin_maps.lookup_insert_eq. discriminate.
  - now apply IH.
Qed.

End FoldInsert.

(** ** [NewSliceEnv], [NewMapEnv] and [Get] *)

Section EnvFacts.
Variable GOOS : string.
Variable ToUpper : string -> string.
Variable range : stdpp.gmap.gmap string string -> list (string * string).

Local Abbreviation N := (interpolate.normalizeKeyName GOOS ToUpper).
Local Abbreviation Get := (interpolate.Get GOOS ToUpper).
Local Abbreviation NewSliceEnv := (interpolate.NewSliceEnv GOOS ToUpper).
Local Abbreviation NewMapEnv := (interpolate.NewMapEnv GOOS ToUpper range).

Lemma Get_cases (m : interpolate.mapEnv) (key : string) :
  (exists v, Get m key = (v, true)) \/ Get m key = (EmptyString, false).
Proof.
  unfold interpolate.Get. destruct m as [m|]; [|now right].
  destruct (stdpp.base.lookup _ m) as [v|]; [left; now exists v|now right].
Qed.

Lemma NewSliceEnv_snoc_skip (env : list string) (l : string) :
  strings.Contains l "=" = false ->
  NewSliceEnv (env ++ [l]) = NewSliceEnv env.
Proof.
  intros Hl. unfold interpolate.NewSliceEnv.
  rewrite fold_left_app. cbn [fold_left].
  now rewrite (SplitN_no_eq_sign l Hl).
Qed.

Lemma Get_snoc_assign (env : list string) (k v key : string) :
  strings.Contains k "=" = false ->
  Get (NewSliceEnv (env ++ [interpolate.assign k v])) key
  = if String.eqb (N key) (N k) then (v, true)
    else Get (NewSliceEnv env) key.
Proof.
  intros Hk. unfold interpolate.NewSliceEnv, interpolate.Get.
  rewrite fold_left_app. cbn [fold_left].
  rewrite (SplitN_assign k v Hk). cbn [List.length Nat.eqb nth].
  destruct (String.eqb_spec (N key) (N k)) as [->|Hne].
  - now rewrite stdpp.fin_maps.lookup_insert_eq.
  - rewrite stdpp.fin_maps.lookup_insert_ne by congruence. reflexivity.
Qed.

Lemma NewSliceEnv_nil (key : string) :
  Get (NewSliceEnv []) key = (EmptyString, false).
Proof.
  unfold interpolate.NewSliceEnv, interpolate.Get. cbn [fold_left].
  now rewrite stdpp.fin_maps.lookup_empty.
Qed.

(** X1.  The last binding wins.  After [NewSliceEnv], looking up a key
    gives the value of the last entry [k=v] of the slice whose key
    normalizes like the key looked up; the value is everything after the
    first "=" and may itself contain "=" or be empty. *)
Theorem NewSliceEnv_last_binding (env1 env2 : list string) (k v key : string) :
  strings.Contains k "=" = false ->
  N key = N k ->
  (forall k' v', In (interpolate.assign k' v') env2 ->
                 strings.Contains k' "=" = false -> N k' <> N key) ->
  Get (NewSliceEnv (env1 ++ interpolate.assign k v :: env2)) key = (v, true).
Proof.
  intros Hk Hkey. induction env2 as [|l env2 IH] using rev_ind; intros Hlater.
  - rewrite Get_snoc_assign by assumption.
    now rewrite Hkey, String.eqb_refl.
  - rewrite app_comm_cons, app_assoc.
    assert (IH' : Get (NewSliceEnv (env1 ++ interpolate.assign k v :: env2)) key
                  = (v, true)).
    { apply IH. intros k' v' Hin. apply (Hlater k' v'), in_or_app. now left. }
    destruct (strings.Contains l "=") eqn:Hl.
    + destruct (assign_split l Hl) as (k' & v' & -> & Hk').
      rewrite Get_snoc_assign by assumption.
      destruct (String.eqb_spec (N key) (N k')) as [He|_]; [|exact IH'].
      exfalso. apply (Hlater k' v'); [|assumption|congruence].
      apply in_or_app. right. now left.
    + now rewrite NewSliceEnv_snoc_skip.
Qed.

(** Where a hit comes from. *)
Lemma NewSliceEnv_hit (env : list string) (key v : string) :
  Get (NewSliceEnv env) key = (v, true) ->
  exists k,
    In (interpolate.assign k v) env
    /\ strings.Contains k "=" = false
    /\ N k = N key.
Proof.
  induction env as [|l env IH] using rev_ind; intros Hget.
  - rewrite NewSliceEnv_nil in Hget. discriminate.
  - destruct (strings.Contains l "=") eqn:Hl.
    + destruct (assign_split l Hl) as (k' & v' & -> & Hk').
      rewrite Get_snoc_assign in Hget by assumption.
      destruct (String.eqb_spec (N key) (N k')) as [He|_].
      * injection Hget as ->. exists k'. split; [|split; congruence].
        apply in_or_app. right. now left.
      * destruct (IH Hget) as (k & Hin & Hk & HN).
        exists k. split; [|split; assumption].
        apply in_or_app. now left.
    + rewrite NewSliceEnv_snoc_skip in Hget by assumption.
      destruct (IH Hget) as (k & Hin & Hk & HN).
      exists k. split; [|split; assumption].
      apply in_or_app. now left.
Qed.

(** X2.  A hit always comes from the slice: when [Get] finds a value,
    some entry [k=v] of the slice carries that value under a key without
    "=" that normalizes like the key looked up. *)
Theorem NewSliceEnv_hit_from_entry (env : list string) (key v : string) :
  Get (NewSliceEnv env) key = (v, true) ->
  exists k,
    In (interpolate.assign k v) env
    /\ strings.Contains k "=" = false
    /\ N k = N key.
Proof.
  induction env as [|l env IH] using rev_ind; intros Hget.
  - rewrite NewSliceEnv_nil in Hget. discriminate.
  - destruct (strings.Contains l "=") eqn:Hl.
    + destruct (assign_split l Hl) as (k' & v' & -> & Hk').
      rewrite Get_snoc_assign in Hget by assumption.
      destruct (String.eqb_spec (N key) (N k')) as [He|_].
      * injection Hget as ->. exists k'. split; [|split; congruence].
        apply in_or_app. right. now left.
      * destruct (IH Hget) as (k & Hin & Hk & HN).
        exists k. split; [|split; assumption].
        apply in_or_app. now left.
    + rewrite NewSliceEnv_snoc_skip in Hget by assumption.
      destruct (IH Hget) as (k & Hin & Hk & HN).
      exists k. split; [|split; assumption].
      apply in_or_app. now left.
Qed.

(** X3.  Entries without "=" are dropped: removing one from the slice,
    wherever it stands, leaves the environment built from it the same. *)
Theorem NewSliceEnv_skips_malformed (env1 env2 : list string) (l : string) :
  strings.Contains l "=" = false ->
  NewSliceEnv (env1 ++ l :: env2) = NewSliceEnv (env1 ++ env2).
Proof.
  intros Hl. unfold interpolate.NewSliceEnv.
  rewrite !fold_left_app. cbn [fold_left].
  now rewrite (SplitN_no_eq_sign l Hl).
Qed.

(** X4.  Off Windows, a key that contains "=" is never found, whatever
    the slice holds: the key of an entry ends at its first "=". *)
Theorem NewSliceEnv_key_with_eq_sign (env : list string) (key : string) :
  String.eqb GOOS "windows" = false ->
  strings.Contains key "=" = true ->
  Get (NewSliceEnv env) key = (EmptyString, false).
Proof.
  intros Hos Hkey.
  destruct (Get_cases (NewSliceEnv env) key) as [[v Hv]|H]; [|exact H].
  destruct (NewSliceEnv_hit env key v Hv) as (k & _ & Hk & HN).
  unfold interpolate.normalizeKeyName in HN. rewrite Hos in HN.
  congruence.
Qed.

Lemma fmap_fst_map (l : list (string * string)) :
  stdpp.base.fmap fst l = map fst l.
Proof.
  induction l as [|kv l IH]; [reflexivity|].
  cbn [map]. rewrite <- IH. reflexivity.
Qed.

Lemma range_In (env : stdpp.gmap.gmap string string) (k v : string) :
  Permutation (range env) (stdpp.fin_maps.map_to_list env) ->
  In (k, v) (range env) <-> stdpp.base.lookup k env = Some v.
Proof.
  intros Hp. rewrite <- stdpp.fin_maps.elem_of_map_to_list.
  rewrite stdpp.base.list_elem_of_In. split; intros H.
  - eapply Permutation_in; [exact Hp|exact H].
  - eapply Permutation_in; [symmetry; exact Hp|exact H].
Qed.

Lemma range_NoDup (env : stdpp.gmap.gmap string string) :
  Permutation (range env) (stdpp.fin_maps.map_to_list env) ->
  NoDup (map fst (range env)).
Proof.
  intros Hp. eapply Permutation_NoDup.
  - symmetry. apply Permutation_map. exact Hp.
  - apply stdpp.base.NoDup_ListNoDup.
    pose proof (stdpp.fin_maps.NoDup_fst_map_to_list env) as H.
    now rewrite fmap_fst_map in H.
Qed.

(** X5.  Off Windows, [NewMapEnv] is a faithful copy: in whatever order
    [range] visits the map, [Get] on the result answers exactly what the
    map holds. *)
Theorem NewMapEnv_copy (env : stdpp.gmap.gmap string string) (key : string) :
  Permutation (range env) (stdpp.fin_maps.map_to_list env) ->
  String.eqb GOOS "windows" = false ->
  Get (NewMapEnv env) key
  = match stdpp.base.lookup key env with
    | Some v => (v, true)
    | None => (EmptyString, false)
    end.
Proof.
  intros Hp Hos. unfold interpolate.NewMapEnv, interpolate.Get.
  assert (HN : forall k, N k = k).
  { intros k. unfold interpolate.normalizeKeyName. now rewrite Hos. }
  rewrite HN.
  destruct (stdpp.base.lookup key env) as [v|] eqn:Hl.
  - apply (range_In env key v Hp) in Hl.
    pose proof (fold_insert_hit N (range env) stdpp.base.empty key v) as H.
    rewrite HN in H. rewrite H; [reflexivity| |exact Hl].
    erewrite map_ext; [exact (range_NoDup env Hp)|].
    intros kv. apply HN.
  - destruct (stdpp.base.lookup key (fold_left _ _ _)) as [v|] eqn:Hf;
      [|reflexivity].
    apply (fold_insert_sound N) in Hf. destruct Hf as [(k & Hin & Hk)|H0].
    + rewrite HN in Hk. subst k. apply (range_In env key v Hp) in Hin.
      congruence.
    + now rewrite stdpp.fin_maps.lookup_empty in H0.
Qed.

(** X6.  On any system, and in whatever order [range] visits the map, a
    value found in the result of [NewMapEnv] is the value of a map key
    that normalizes like the key looked up, and every key of the map is
    found. *)
Theorem NewMapEnv_normalized (env : stdpp.gmap.gmap string string) :
  Permutation (range env) (stdpp.fin_maps.map_to_list env) ->
  (forall key v,
     Get (NewMapEnv env) key = (v, true) ->
     exists k, stdpp.base.lookup k env = Some v /\ N k = N key)
  /\ (forall k v,
        stdpp.base.lookup k env = Some v ->
        snd (Get (NewMapEnv env) k) = true).
Proof.
  intros Hp. split.
  - intros key v. unfold interpolate.NewMapEnv, interpolate.Get.
    destruct (stdpp.base.lookup (N key) (fold_left _ _ _)) as [v'|] eqn:Hf;
      [|discriminate].
    intros [= ->]. apply (fold_insert_sound N) in Hf.
    destruct Hf as [(k & Hin & Hk)|H0].
    + exists k. split; [|exact Hk]. now apply (range_In env k v Hp).
    + now rewrite stdpp.fin_maps.lookup_empty in H0.
  - intros k v Hl. apply (range_In env k v Hp) in Hl.
    unfold interpolate.NewMapEnv, interpolate.Get.
    destruct (stdpp.base.lookup (N k) (fold_left _ _ _)) as [v'|] eqn:Hf;
      [reflexivity|].
    exfalso. revert Hf. apply (fold_insert_bound N). left.
    apply (in_map (fun kv => N (fst kv)) (range env) (k, v) Hl).
Qed.

(** X7.  The two constructors agree: writing the entries of a map as
    [key=value] lines, in the order [range] visits them, and handing the
    lines to [NewSliceEnv] builds the same environment as [NewMapEnv],
    provided no key contains "=". *)
Theorem NewSliceEnv_of_map_lines (env : stdpp.gmap.gmap string string) :
  (forall kv, In kv (range env) -> strings.Contains (fst kv) "=" = false) ->
  NewSliceEnv
    (map (fun kv => interpolate.assign (fst kv) (snd kv)) (range env))
  = NewMapEnv env.
Proof.
  unfold interpolate.NewSliceEnv, interpolate.NewMapEnv.
  generalize (stdpp.base.empty : stdpp.gmap.gmap string string).
  induction (range env) as [|[k v] l IH]; intros m0 Hkeys; [reflexivity|].
  cbn [map fold_left fst snd].
  rewrite (SplitN_assign k v) by (apply (Hkeys (k, v)); now left).
  cbn [List.length Nat.eqb nth].
  apply (IH (stdpp.base.insert (N k) v m0)).
  intros kv Hin. apply Hkeys. now right.
Qed.

End EnvFacts.

(** Two ways of writing one line as [key=value] with "="-free keys are
    the same way. *)
Lemma assign_inj (k v k' v' : string) :
  strings.Contains k "=" = false ->
  strings.Contains k' "=" = false ->
  interpolate.assign k v = interpolate.assign k' v' ->
  k = k' /\ v = v'.
Proof.
  intros Hk Hk' He.
  pose proof (SplitN_assign k v Hk) as H.
  rewrite He, (SplitN_assign k' v' Hk') in H.
  now injection H as -> ->.
Qed.

Lemma Contains_assign (k v : string) :
  strings.Contains (interpolate.assign k v) "=" = true.
Proof.
  unfold interpolate.assign. induction k as [|c k IH].
  - rewrite append_nil, append_cons, Contains_eq_sign.
    now rewrite Ascii.eqb_refl.
  - rewrite append_cons, Contains_eq_sign, IH. apply orb_true_r.
Qed.

Lemma NewSliceEnv_last_binding_witness :
  interpolate.Get "windows" interpolate.ToUpper_ascii
    (interpolate.NewSliceEnv "windows" interpolate.ToUpper_ascii
       (["Path=/bin"] ++ interpolate.assign "Path" "C:/tools;x=y"
          :: ["no equals sign"; "HOME=/root"]))
    "PATH"
  = ("C:/tools;x=y", true).
Proof.
  apply (NewSliceEnv_last_binding "windows" interpolate.ToUpper_ascii
           ["Path=/bin"] ["no equals sign"; "HOME=/root"]
           "Path" "C:/tools;x=y" "PATH"); [reflexivity|reflexivity|].
  intros k' v' [H|[H|[]]] Hk'.
  - pose proof (Contains_assign k' v') as Hc. rewrite <- H in Hc.
    discriminate Hc.
  - destruct (assign_inj "HOME" "/root" k' v' eq_refl Hk' H) as [<- _].
    vm_compute. discriminate.
Defined.

Lemma NewSliceEnv_hit_from_entry_witness :
  exists k,
    In (interpolate.assign k "/root") ["PATH=/bin"; "HOME=/root"]
    /\ strings.Contains k "=" = false
    /\ interpolate.normalizeKeyName "linux" interpolate.ToUpper_ascii k
       = interpolate.normalizeKeyName "linux" interpolate.ToUpper_ascii "HOME".
Proof.
  apply (NewSliceEnv_hit_from_entry "linux" interpolate.ToUpper_ascii
           ["PATH=/bin"; "HOME=/root"] "HOME" "/root").
  change ["PATH=/bin"; "HOME=/root"]
    with (["PATH=/bin"] ++ [interpolate.assign "HOME" "/root"]).
  now rewrite Get_snoc_assign.
Defined.

Lemma NewSliceEnv_skips_malformed_witness :
  interpolate.NewSliceEnv "linux" interpolate.ToUpper_ascii
    (["A=1"] ++ "no equals sign" :: ["B=2"])
  = interpolate.NewSliceEnv "linux" interpolate.ToUpper_ascii
      (["A=1"] ++ ["B=2"]).
Proof.
  apply (NewSliceEnv_skips_malformed "linux" interpolate.ToUpper_ascii
           ["A=1"] ["B=2"] "no equals sign").
  reflexivity.
Defined.

Lemma NewSliceEnv_key_with_eq_sign_witness :
  interpolate.Get "linux" interpolate.ToUpper_ascii
    (interpolate.NewSliceEnv "linux" interpolate.ToUpper_ascii
       ["A=B=1"; "A=B=C"])
    "A=B"
  = (EmptyString, false).
Proof.
  apply (NewSliceEnv_key_with_eq_sign "linux" interpolate.ToUpper_ascii
           ["A=B=1"; "A=B=C"] "A=B");
    reflexivity.
Defined.

Lemma NewMapEnv_copy_witness :
  interpolate.Get "linux" interpolate.ToUpper_ascii
    (interpolate.NewMapEnv "linux" interpolate.ToUpper_ascii
       stdpp.fin_maps.map_to_list two_vars)
    "Path"
  = ("/bin", true).
Proof.
  rewrite (NewMapEnv_copy "linux" interpolate.ToUpper_ascii
             stdpp.fin_maps.map_to_list two_vars "Path"
             (Permutation_refl _) eq_refl).
  unfold two_vars. now rewrite stdpp.fin_maps.lookup_insert_eq.
Defined.

Lemma NewMapEnv_normalized_witness :
  snd (interpolate.Get "windows" interpolate.ToUpper_ascii
         (interpolate.NewMapEnv "windows" interpolate.ToUpper_ascii
            stdpp.fin_maps.map_to_list two_vars)
         "Path")
  = true.
Proof.
  destruct (NewMapEnv_normalized "windows" interpolate.ToUpper_ascii
              stdpp.fin_maps.map_to_list two_vars (Permutation_refl _))
    as [_ H].
  apply (H "Path" "/bin").
  unfold two_vars. now rewrite stdpp.fin_maps.lookup_insert_eq.
Defined.


Lemma two_vars_keys (kv : string * string) :
  In kv (stdpp.fin_maps.map_to_list two_vars) ->
  strings.Contains (fst kv) "=" = false.
Proof.
  destruct kv as [k v]. intros Hin.
  apply stdpp.base.list_elem_of_In, stdpp.fin_maps.elem_of_map_to_list in Hin.
  unfold two_vars in Hin.
  destruct (string_dec "Path" k) as [<-|Hp]; [reflexivity|].
  rewrite stdpp.fin_maps.lookup_insert_ne in Hin by assumption.
  destruct (string_dec "HOME" k) as [<-|Hh]; [reflexivity|].
  rewrite stdpp.fin_maps.lookup_insert_ne in Hin by assumption.
  now rewrite stdpp.fin_maps.lookup_empty in Hin.
Qed.

Lemma NewSliceEnv_of_map_lines_witness :
  interpolate.NewSliceEnv "windows" interpolate.ToUpper_ascii
    (map (fun kv => interpolate.assign (fst kv) (snd kv))
       (stdpp.fin_maps.map_to_list two_vars))
  = interpolate.NewMapEnv "windows" interpolate.ToUpper_ascii
      stdpp.fin_maps.map_to_list two_vars.
Proof.
  exact (NewSliceEnv_of_map_lines "windows" interpolate.ToUpper_ascii
           stdpp.fin_maps.map_to_list two_vars two_vars_keys).
Defined.

(** * Building the framework *)

Section HarnessFacts.
Context {Config K C A X : Type}.
Variable libs : @harness.Libs Config K C A X.

Local Abbreviation Framework := (@harness.Framework Config K C A X).
Local Abbreviation World := (@harness.World X).

Ltac hsimpl :=
  cbn [fst snd harness.RestConfig harness.KubeClient harness.CAPIClient
       harness.APIRegistrationClient harness.Kubeconfig harness.SSH
       harness.ActuatorImage harness.ErrNotExpected harness.By harness.ext
       harness.calls harness.is_nil_handle harness.set_RestConfig
       harness.set_KubeClient harness.set_CAPIClient
       harness.set_APIRegistrationClient is_nil negb] in *.

(** Run [buildClientsets] through every path. *)
Ltac build_cases f w :=
  unfold harness.buildClientsets, harness.extern, harness.assign,
    harness.self, bind, ret;
  destruct f as [kc cc ac kcfg rc ssh img hook by_];
  destruct w as [x cs0];
  hsimpl;
  destruct rc as [rc|]; hsimpl;
  try (destruct (harness.GetConfig libs kcfg x) as [[rc' [e1|]] x1] eqn:E1);
  hsimpl;
  destruct kc as [kc|]; hsimpl;
  try (destruct (harness.kubernetes_NewForConfig libs _ _)
         as [[kc' [e2|]] x2] eqn:E2);
  hsimpl;
  destruct cc as [cc|]; hsimpl;
  try (destruct (harness.clientset_NewForConfig libs _ _)
         as [[cc' [e3|]] x3] eqn:E3);
  hsimpl;
  destruct ac as [ac|]; hsimpl;
  try (destruct (harness.apiregistration_NewForConfig libs _ _)
         as [[ac' [e4|]] x4] eqn:E4);
  hsimpl.

(** The calls added to [cs0], as one list. *)
Ltac added :=
  eexists; split;
  [repeat rewrite <- app_assoc; cbn [app];
   first [reflexivity | symmetry; apply app_nil_r]|].

(** What [buildClientsets] leaves alone and what it may call. *)
Lemma buildClientsets_frame (f : Framework) (w : World) :
  let '(_, (f', w')) := harness.buildClientsets libs (f, w) in
  settings f' = settings f
  /\ harness.ErrNotExpected f' = harness.ErrNotExpected f
  /\ harness.By f' = harness.By f
  /\ (harness.RestConfig f <> None ->
      harness.RestConfig f' = harness.RestConfig f)
  /\ (harness.KubeClient f <> None ->
      harness.KubeClient f' = harness.KubeClient f)
  /\ (harness.CAPIClient f <> None ->
      harness.CAPIClient f' = harness.CAPIClient f)
  /\ (harness.APIRegistrationClient f <> None ->
      harness.APIRegistrationClient f' = harness.APIRegistrationClient f)
  /\ exists cs,
       harness.calls w' = harness.calls w ++ cs /\ Forall (fills_nil f) cs.
Proof.
  build_cases f w.
  all: repeat (split; [solve [reflexivity | intros H; now elim H]|]).
  all: added.
  all: repeat constructor.
Qed.

(** Without a rest configuration the first call loads one. *)
Lemma buildClientsets_loads_config (f : Framework) (w : World) :
  harness.RestConfig f = None ->
  exists e cs,
    harness.calls (snd (snd (harness.buildClientsets libs (f, w))))
    = harness.calls w ++ harness.GetConfigCall (harness.Kubeconfig f) e :: cs
    /\ (e <> None -> fst (harness.buildClientsets libs (f, w)) = e /\ cs = []).
Proof.
  build_cases f w; intros Hrc; try discriminate Hrc.
  all: eexists; eexists; split;
    [repeat rewrite <- app_assoc; cbn [app]; reflexivity|].
  all: intros Hne; solve [split; reflexivity | now elim Hne].
Qed.

(** The result is the error of the last call made. *)
Lemma buildClientsets_result (f : Framework) (w : World) :
  let '(err, (_, w')) := harness.buildClientsets libs (f, w) in
  exists cs,
    harness.calls w' = harness.calls w ++ cs
    /\ rising 0 cs
    /\ Forall (fun c => call_err c = None) (removelast cs)
    /\ err = last_err cs.
Proof.
  build_cases f w.
  all: added.
  all: cbn; repeat split; try lia; repeat constructor.
Qed.

(** X8.  [buildClientsets] only fills in: a handle that is set is left as
    it is, the settings and hooks of the framework are never touched, and
    the only calls made construct handles that were nil, the rest
    configuration from the framework's own kubeconfig path. *)
Theorem buildClientsets_only_fills (f : Framework) (w : World) :
  let '(_, (f', w')) := harness.buildClientsets libs (f, w) in
  settings f' = settings f
  /\ harness.ErrNotExpected f' = harness.ErrNotExpected f
  /\ harness.By f' = harness.By f
  /\ (harness.RestConfig f <> None ->
      harness.RestConfig f' = harness.RestConfig f)
  /\ (harness.KubeClient f <> None ->
      harness.KubeClient f' = harness.KubeClient f)
  /\ (harness.CAPIClient f <> None ->
      harness.CAPIClient f' = harness.CAPIClient f)
  /\ (harness.APIRegistrationClient f <> None ->
      harness.APIRegistrationClient f' = harness.APIRegistrationClient f)
  /\ exists cs,
       harness.calls w' = harness.calls w ++ cs /\ Forall (fills_nil f) cs.
Proof.
  build_cases f w.
  all: repeat (split; [solve [reflexivity | intros H; now elim H]|]).
  all: added.
  all: repeat constructor.
Qed.

(** X9.  [buildClientsets] fails fast: it calls the constructors in the
    order rest configuration, kube client, cluster-API client,
    API-registration client, each at most once; it stops at the first
    call that returns an error, and its result is the error of the last
    call it made (nil if it made none). *)
Theorem buildClientsets_fails_fast (f : Framework) (w : World) :
  let '(err, (_, w')) := harness.buildClientsets libs (f, w) in
  exists cs,
    harness.calls w' = harness.calls w ++ cs
    /\ rising 0 cs
    /\ Forall (fun c => call_err c = None) (removelast cs)
    /\ err = last_err cs.
Proof.
  build_cases f w.
  all: added.
  all: cbn; repeat split; try lia; repeat constructor.
Qed.

Lemma built_noop (f : Framework) (w : World) :
  built f -> harness.buildClientsets libs (f, w) = (None, (f, w)).
Proof.
  intros (H1 & H2 & H3 & H4). revert H1 H2 H3 H4.
  build_cases f w; intros H1 H2 H3 H4;
    solve [reflexivity | now elim H1 | now elim H2 | now elim H3
           | now elim H4].
Qed.

Lemma built_after_success (f : Framework) (w : World) :
  honest libs ->
  fst (harness.buildClientsets libs (f, w)) = None ->
  built (fst (snd (harness.buildClientsets libs (f, w)))).
Proof.
  intros (Hg & Hk & Hc & Ha).
  build_cases f w; intros Herr; try discriminate Herr;
    unfold built; hsimpl.
  all: repeat match goal with
       | E : harness.GetConfig libs ?p ?x = _ |- _ =>
           let H := fresh in
           pose proof (Hg p x) as H; rewrite E in H; cbn [fst snd] in H;
           specialize (H eq_refl); clear E
       | E : harness.kubernetes_NewForConfig libs ?c ?x = _ |- _ =>
           let H := fresh in
           pose proof (Hk c x) as H; rewrite E in H; cbn [fst snd] in H;
           specialize (H eq_refl); clear E
       | E : harness.clientset_NewForConfig libs ?c ?x = _ |- _ =>
           let H := fresh in
           pose proof (Hc c x) as H; rewrite E in H; cbn [fst snd] in H;
           specialize (H eq_refl); clear E
       | E : harness.apiregistration_NewForConfig libs ?c ?x = _ |- _ =>
           let H := fresh in
           pose proof (Ha c x) as H; rewrite E in H; cbn [fst snd] in H;
           specialize (H eq_refl); clear E
       end.
  all: repeat split; solve [discriminate | assumption].
Qed.

(** X10.  Once it has succeeded, [buildClientsets] has nothing left to
    do: with constructors that return a handle whenever they return a
    nil error, a successful run leaves all four handles set, and a second
    run makes no call, changes nothing and returns nil. *)
Theorem buildClientsets_idempotent (f : Framework) (w : World) :
  honest libs ->
  fst (harness.buildClientsets libs (f, w)) = None ->
  let s' := snd (harness.buildClientsets libs (f, w)) in
  built (fst s')
  /\ harness.buildClientsets libs s' = (None, s').
Proof.
  intros Hh Herr s'.
  pose proof (built_after_success f w Hh Herr) as Hb. fold s' in Hb.
  split; [exact Hb|].
  destruct s' as [f' w']. now apply built_noop.
Qed.

Lemma NewFrameworkFromConfig_ssh (flags : Flags) (config : option Config)
    (sshConfig : option SSHConfig.t) (w : World) :
  harness.SSH
    (fst (fst (harness.NewFrameworkFromConfig libs flags config sshConfig w)))
  = sshConfig.
Proof.
  unfold harness.NewFrameworkFromConfig.
  match goal with
  | |- context [harness.buildClientsets libs (?f0, w)] =>
      pose proof (buildClientsets_frame f0 w) as Hf;
      destruct (harness.buildClientsets libs (f0, w)) as [err [f' w']]
  end.
  destruct Hf as (Hset & _). cbn [fst]. unfold settings in Hset.
  cbn [harness.SSH] in Hset. congruence.
Qed.

(** What [NewFramework] returns and does. *)
Lemma NewFramework_run (flags : Flags) (w : World) :
  let '((fo, err), w') := harness.NewFramework libs flags w in
  match fo with
  | Some f =>
      sshkey flags <> EmptyString /\ kubeconfig flags <> EmptyString
      /\ err = None
      /\ settings f
         = (kubeconfig flags,
            Some {| SSHConfig.Key := sshkey flags;
                    SSHConfig.User := sshuser flags;
                    SSHConfig.Host := EmptyString |},
            actuatorImage flags)
      /\ harness.RestConfig f = None /\ harness.KubeClient f = None
      /\ harness.CAPIClient f = None
      /\ harness.APIRegistrationClient f = None
      /\ w' = harness.mkWorld (harness.ext w)
                (harness.calls w ++ [harness.BeforeEachCall])
  | None =>
      w' = w
      /\ ((sshkey flags = EmptyString /\ err = Some "-sshkey not set")
          \/ (sshkey flags <> EmptyString /\ kubeconfig flags = EmptyString
              /\ err = Some "-kubeconfig not set"))
  end.
Proof.
  unfold harness.NewFramework, ret.
  destruct (String.eqb_spec (sshkey flags) EmptyString) as [Hs|Hs].
  - split; [reflexivity|]. left. now split.
  - destruct (String.eqb_spec (kubeconfig flags) EmptyString) as [Hk|Hk].
    + split; [reflexivity|]. right. now repeat split.
    + now repeat split.
Qed.

(** X11.  [NewFramework] needs both flags and builds nothing.  It fails,
    without registering anything, exactly when the ssh key or the
    kubeconfig flag is empty, and names the ssh key first; when it
    succeeds the framework carries the flags, an ssh configuration with
    an empty host, no client handle at all, and the only effect is one
    registration with [BeforeEach]. *)
Theorem NewFramework_needs_flags (flags : Flags) (w : World) :
  let '((fo, err), w') := harness.NewFramework libs flags w in
  match fo with
  | Some f =>
      sshkey flags <> EmptyString /\ kubeconfig flags <> EmptyString
      /\ err = None
      /\ settings f
         = (kubeconfig flags,
            Some {| SSHConfig.Key := sshkey flags;
                    SSHConfig.User := sshuser flags;
                    SSHConfig.Host := EmptyString |},
            actuatorImage flags)
      /\ harness.RestConfig f = None /\ harness.KubeClient f = None
      /\ harness.CAPIClient f = None
      /\ harness.APIRegistrationClient f = None
      /\ w' = harness.mkWorld (harness.ext w)
                (harness.calls w ++ [harness.BeforeEachCall])
  | None =>
      w' = w
      /\ ((sshkey flags = EmptyString /\ err = Some "-sshkey not set")
          \/ (sshkey flags <> EmptyString /\ kubeconfig flags = EmptyString
              /\ err = Some "-kubeconfig not set"))
  end.
Proof.
  unfold harness.NewFramework, ret.
  destruct (String.eqb_spec (sshkey flags) EmptyString) as [Hs|Hs].
  - split; [reflexivity|]. left. now split.
  - destruct (String.eqb_spec (kubeconfig flags) EmptyString) as [Hk|Hk].
    + split; [reflexivity|]. right. now repeat split.
    + now repeat split.
Qed.

(** X12.  [DefaultSSHConfig] gives the ssh configuration [NewFramework]
    would put into the framework, and needs only the ssh key flag. *)
Theorem DefaultSSHConfig_agrees (flags : Flags) :
  (forall (w : World) f,
     fst (fst (harness.NewFramework libs flags w)) = Some f ->
     harness.DefaultSSHConfig flags = (harness.SSH f, None))
  /\ (sshkey flags <> EmptyString <->
      exists cfg, harness.DefaultSSHConfig flags = (Some cfg, None)).
Proof.
  split.
  - intros w f. unfold harness.NewFramework, harness.DefaultSSHConfig, ret.
    destruct (String.eqb (sshkey flags) EmptyString); [discriminate|].
    destruct (String.eqb (kubeconfig flags) EmptyString); [discriminate|].
    cbn [fst]. now intros [= <-].
  - unfold harness.DefaultSSHConfig.
    destruct (String.eqb_spec (sshkey flags) EmptyString) as [Hs|Hs].
    + split; [contradiction|]. intros [cfg H]. discriminate H.
    + split; [|intros _; exact Hs]. intros _. eexists. reflexivity.
Qed.

(** X13.  [NewFrameworkFromConfig] always returns a framework, also
    beside an error, with the ssh configuration it was given and an empty
    kubeconfig path; it registers nothing and calls only constructors.
    With a configuration it keeps that configuration and never loads one;
    without, its first call loads one from the empty path, whatever the
    kubeconfig flag says. *)
Theorem NewFrameworkFromConfig_config (flags : Flags) (config : option Config)
    (sshConfig : option SSHConfig.t) (w : World) :
  let '((f, _), w') :=
    harness.NewFrameworkFromConfig libs flags config sshConfig w in
  settings f = (EmptyString, sshConfig, actuatorImage flags)
  /\ (config <> None -> harness.RestConfig f = config)
  /\ exists cs,
       harness.calls w' = harness.calls w ++ cs
       /\ Forall (from_config_call config) cs
       /\ (config = None ->
           exists e cs', cs = harness.GetConfigCall EmptyString e :: cs').
Proof.
  unfold harness.NewFrameworkFromConfig.
  set (f0 := {| harness.KubeClient := None; harness.CAPIClient := None;
                harness.APIRegistrationClient := None;
                harness.Kubeconfig := EmptyString;
                harness.RestConfig := config; harness.SSH := sshConfig;
                harness.ActuatorImage := actuatorImage flags;
                harness.ErrNotExpected := _; harness.By := _ |}).
  pose proof (buildClientsets_frame f0 w) as Hf.
  pose proof (buildClientsets_loads_config f0 w) as Hl.
  destruct (harness.buildClientsets libs (f0, w)) as [err [f' w']].
  cbn [fst snd] in Hl.
  destruct Hf as (Hset & _ & _ & Hrc & _ & _ & _ & cs & Hcs & Hall).
  split; [exact Hset|]. split; [exact Hrc|].
  exists cs. split; [exact Hcs|]. split.
  - eapply Forall_impl; [|exact Hall].
    intros [] Hc; cbn in Hc |- *; auto.
  - intros Hnone. destruct (Hl Hnone) as (e & cs' & Hcalls & _).
    exists e, cs'. rewrite Hcs in Hcalls.
    now apply app_inv_head in Hcalls.
Qed.

(** Constructor calls are no hook calls. *)
Lemma rising_no_hook (cs : list harness.Call) :
  forall from, rising from cs -> filter is_hook_call cs = [].
Proof.
  induction cs as [|c cs IH]; intros from Hr; [reflexivity|].
  cbn [rising] in Hr.
  destruct c; cbn [build_rank] in Hr; try contradiction;
    cbn [filter is_hook_call]; destruct Hr as [_ Hr]; exact (IH _ Hr).
Qed.

(** X14.  Everything the first [BeforeEach] after [NewFramework] does, in
    order: it loads the rest configuration from the path of the
    kubeconfig flag, then calls only constructors, each at most once, in
    the order of [buildClientsets], every one but the last returning nil,
    and then the error hook, once, with the error of the last constructor
    called, a nil error included.  So the hook is called exactly once and
    last; when loading fails nothing else is tried. *)
Theorem NewFramework_then_BeforeEach (flags : Flags) (w w1 : World)
    (f : Framework) :
  harness.NewFramework libs flags w = ((Some f, None), w1) ->
  let err := fst (harness.buildClientsets libs (f, w1)) in
  let '(_, (_, w2)) := harness.BeforeEach libs (f, w1) in
  exists e cs,
    let built_calls := harness.GetConfigCall (kubeconfig flags) e :: cs in
    let new_calls :=
      harness.BeforeEachCall
      :: built_calls ++ [harness.ErrNotExpectedCall err] in
    harness.calls w2 = harness.calls w ++ new_calls
    /\ rising 1 cs
    /\ Forall (fun c => call_err c = None) (removelast built_calls)
    /\ err = last_err built_calls
    /\ List.length (filter is_hook_call new_calls) = 1%nat
    /\ (e <> None -> err = e /\ cs = []).
Proof.
  intros Hnew.
  pose proof (NewFramework_run flags w) as Hf. rewrite Hnew in Hf.
  destruct Hf as (_ & _ & _ & Hset & Hrc & _ & _ & _ & ->).
  assert (Hk : harness.Kubeconfig f = kubeconfig flags)
    by (unfold settings in Hset; congruence).
  set (w1 := harness.mkWorld (harness.ext w)
               (harness.calls w ++ [harness.BeforeEachCall])).
  destruct (buildClientsets_loads_config f w1 Hrc)
    as (e & cs & Hcalls & Hfail).
  pose proof (buildClientsets_result f w1) as Hres.
  unfold harness.BeforeEach, harness.call_ErrNotExpected, bind.
  destruct (harness.buildClientsets libs (f, w1)) as [err [f' w']].
  destruct Hres as (cs0 & Hcs0 & Hrise & Hnil & Herr).
  cbn [fst snd harness.calls] in *.
  rewrite Hcs0, Hk in Hcalls. apply app_inv_head in Hcalls. subst cs0.
  destruct Hrise as [_ Hrise].
  exists e, cs. cbn zeta.
  split.
  { rewrite Hcs0. subst w1. cbn [harness.calls].
    rewrite <- !app_assoc. reflexivity. }
  split; [exact Hrise|]. split; [exact Hnil|]. split; [exact Herr|].
  split; [|exact Hfail].
  cbn [filter is_hook_call app]. rewrite filter_app.
  rewrite (rising_no_hook cs _ Hrise). reflexivity.
Qed.

(** X15.  The upload logs in as [ec2-user] whatever the framework says:
    two frameworks whose ssh configurations have the same key run the
    same command, return the same thing and leave the same world, however
    their ssh user, ssh host or anything else may differ. *)
Theorem Upload_ignores_ssh_user (image targetMachine : string)
    (f1 f2 : Framework) (c1 c2 : SSHConfig.t) (w : World) :
  harness.SSH f1 = Some c1 ->
  harness.SSH f2 = Some c2 ->
  SSHConfig.Key c1 = SSHConfig.Key c2 ->
  fst (harness.UploadDockerImageToInstance libs image targetMachine (f1, w))
  = fst (harness.UploadDockerImageToInstance libs image targetMachine (f2, w))
  /\ snd (snd (harness.UploadDockerImageToInstance libs image targetMachine
                 (f1, w)))
     = snd (snd (harness.UploadDockerImageToInstance libs image targetMachine
                   (f2, w))).
Proof.
  intros H1 H2 Hk.
  unfold harness.UploadDockerImageToInstance, harness.log_Info,
    harness.extern, harness.self, bind, ret.
  cbn [fst snd]. rewrite H1, H2, Hk. cbn [fst snd harness.ext harness.calls].
  destruct (harness.CombinedOutput libs _ _) as [[out [e|]] x]; cbn;
    split; reflexivity.
Qed.

(** X16.  A framework made by [NewFrameworkFromConfig] with a nil ssh
    configuration panics in the upload after the first log line, before
    any command is run; one made by [NewFramework] runs exactly one
    command, [bash -c] with the ssh key flag in it, and returns the error
    of that command. *)
Theorem Upload_needs_ssh (flags : Flags) (image targetMachine : string)
    (w : World) :
  (forall config,
     let '((f, _), w1) :=
       harness.NewFrameworkFromConfig libs flags config None w in
     harness.UploadDockerImageToInstance libs image targetMachine (f, w1)
     = (harness.Panicked,
        (f, harness.mkWorld (harness.ext w1)
              (harness.calls w1
               ++ [harness.LogCall
                     ("Uploading " ++ harness.Quote libs image
                      ++ " to the master machine under "
                      ++ harness.Quote libs targetMachine)%string]))))
  /\ (forall f w1,
        harness.NewFramework libs flags w = ((Some f, None), w1) ->
        let argv :=
          ["bash"; "-c";
           harness.upload_command image (sshkey flags) targetMachine] in
        exists out err x,
          harness.CombinedOutput libs argv (harness.ext w1) = ((out, err), x)
          /\ harness.UploadDockerImageToInstance libs image targetMachine
               (f, w1)
             = (harness.Returned err,
                (f, harness.mkWorld x
                      (harness.calls w1
                       ++ [harness.LogCall
                             ("Uploading " ++ harness.Quote libs image
                              ++ " to the master machine under "
                              ++ harness.Quote libs targetMachine)%string;
                           harness.CombinedOutputCall argv err;
                           harness.LogCall out])))).
Proof.
  split.
  - intros config.
    pose proof (NewFrameworkFromConfig_ssh flags config None w) as Hs.
    destruct (harness.NewFrameworkFromConfig libs flags config None w)
      as [[f err] w1].
    unfold harness.UploadDockerImageToInstance, harness.log_Info,
      harness.self, bind, ret.
    cbn [fst snd] in Hs |- *. now rewrite Hs.
  - intros f w1 Hnew argv.
    pose proof (NewFramework_run flags w) as Hf. rewrite Hnew in Hf.
    destruct Hf as (_ & _ & _ & Hset & _).
    assert (Hssh : harness.SSH f
                   = Some {| SSHConfig.Key := sshkey flags;
                             SSHConfig.User := sshuser flags;
                             SSHConfig.Host := EmptyString |})
      by (unfold settings in Hset; congruence).
    unfold harness.UploadDockerImageToInstance, harness.log_Info,
      harness.extern, harness.self, bind, ret.
    cbn [fst snd]. rewrite Hssh.
    cbn [fst snd harness.ext harness.calls SSHConfig.Key]. fold argv.
    destruct (harness.CombinedOutput libs argv (harness.ext w1))
      as [[out [e|]] x]; cbn;
      eexists; eexists; eexists; (split; [reflexivity|]);
      now rewrite <- !app_assoc.
Qed.

End HarnessFacts.

Lemma snoc_neq {T : Type} (l : list T) (x : T) : l <> l ++ [x].
Proof.
  intros H. apply (f_equal (@List.length T)) in H.
  rewrite length_app in H. cbn in H. lia.
Qed.

(** X17.  [IgnoreNotFoundErr] and the update closure of Scale-To-Zero
    draw the same line: handed the error of an update, it leaves
    everything as it is exactly when the closure reports that update as
    done (a nil error, or one whose message contains "not found"); on
    every other error it calls the error hook once, with that error, and
    still leaves the framework alone. *)
Theorem IgnoreNotFoundErr_matches_mutate {W Config K C A X : Type}
    (f0 : Framework W) (st : Store StatefulSet.t W)
    (result : StatefulSet.t) (uerr : error) (w0 : W)
    (s : @harness.Framework Config K C A X * @harness.World X) :
  StatefulSets_Update (KubeClient f0) (StatefulSet.Namespace (mem st))
    (mem st) (world st) = ((result, uerr), w0) ->
  let done :=
    wait.outcome (fst (ScaleSatefulSetDownToZero_func1 f0 st)) in
  let s' := snd (harness.IgnoreNotFoundErr uerr s) in
  fst s' = fst s
  /\ (done = Converged <-> s' = s)
  /\ (done <> Converged ->
      harness.calls (snd s')
      = harness.calls (snd s) ++ [harness.ErrNotExpectedCall uerr]
      /\ harness.ext (snd s')
         = harness.ErrNotExpected (fst s) uerr (harness.ext (snd s))).
Proof.
  intros Hup done s'.
  pose proof (ScaleSatefulSetDownToZero_func1_run f0 st) as Hrun.
  cbn zeta in Hrun. rewrite Hup in Hrun.
  assert (Hdone : done = if is_nil uerr || not_found uerr
                         then Converged else Pending).
  { subst done. rewrite Hrun. cbn [fst]. rewrite mutate_done.
    apply outcome_done. }
  subst s'. rewrite Hdone. clear Hdone Hrun done.
  unfold harness.IgnoreNotFoundErr, harness.call_ErrNotExpected, ret.
  destruct uerr as [msg|]; cbn [is_nil not_found orb].
  - destruct (strings.Contains msg "not found"); cbn [fst snd].
    + split; [reflexivity|]. split; [split; reflexivity|].
      intros Hne. now elim Hne.
    + split; [reflexivity|]. split; [|now intros _].
      split; [discriminate|]. intros H. exfalso.
      destruct s as [f [x cs]]. cbn [fst snd harness.calls harness.ext] in H.
      injection H as _ H'. exact (snoc_neq _ _ (eq_sym H')).
  - cbn [fst snd]. split; [reflexivity|]. split; [split; reflexivity|].
    intros Hne. now elim Hne.
Qed.

Lemma IgnoreNotFoundErr_matches_mutate_witness :
  StatefulSets_Update (KubeClient failing) "default" (statefulset_of 0 3)
    0%nat
  = ((statefulset_of 0 3, Some "connection refused"), 1%nat)
  /\ harness.calls
       (snd (snd (harness.IgnoreNotFoundErr (Some "connection refused")
                    (framework0, world0))))
     = [harness.ErrNotExpectedCall (Some "connection refused")].
Proof.
  split; [reflexivity|].
  destruct (IgnoreNotFoundErr_matches_mutate failing
              (mkStore (statefulset_of 0 3) 0%nat [])
              (statefulset_of 0 3) (Some "connection refused") 1%nat
              (framework0, world0) eq_refl) as (_ & _ & H).
  apply H. discriminate.
Defined.

Lemma good_libs_honest : honest good_libs.
Proof. repeat split; discriminate. Qed.

Lemma buildClientsets_idempotent_witness :
  let s' := snd (harness.buildClientsets good_libs (framework0, world0)) in
  built (fst s') /\ harness.buildClientsets good_libs s' = (None, s').
Proof.
  exact (buildClientsets_idempotent good_libs framework0 world0
           good_libs_honest eq_refl).
Defined.

Lemma NewFramework_then_BeforeEach_witness :
  harness.NewFramework good_libs flags0 world0
  = ((Some framework0, None),
     harness.mkWorld 0%nat [harness.BeforeEachCall])
  /\ let w1 := harness.mkWorld 0%nat [harness.BeforeEachCall] in
     let err := fst (harness.buildClientsets good_libs (framework0, w1)) in
     exists e cs,
       harness.calls (snd (snd (harness.BeforeEach good_libs (framework0, w1))))
       = [] ++ harness.BeforeEachCall
            :: (harness.GetConfigCall "/etc/kube.cfg" e :: cs)
               ++ [harness.ErrNotExpectedCall err]
       /\ rising 1 cs
       /\ Forall (fun c => call_err c = None)
            (removelast (harness.GetConfigCall "/etc/kube.cfg" e :: cs))
       /\ err = last_err (harness.GetConfigCall "/etc/kube.cfg" e :: cs)
       /\ List.length
            (filter is_hook_call
               (harness.BeforeEachCall
                :: (harness.GetConfigCall "/etc/kube.cfg" e :: cs)
                   ++ [harness.ErrNotExpectedCall err])) = 1%nat
       /\ (e <> None -> err = e /\ cs = []).
Proof.
  split; [reflexivity|].
  pose proof (NewFramework_then_BeforeEach good_libs flags0 world0
                (harness.mkWorld 0%nat [harness.BeforeEachCall])
                framework0 eq_refl) as H.
  cbn zeta in H |- *.
  destruct (harness.BeforeEach good_libs _) as [u [f2 w2]].
  exact H.
Defined.

Lemma Upload_ignores_ssh_user_witness :
  fst (harness.UploadDockerImageToInstance good_libs "actuator:1" "10.0.0.5"
         (framework0, world0))
  = fst (harness.UploadDockerImageToInstance good_libs "actuator:1" "10.0.0.5"
           (framework1, world0)).
Proof.
  apply (Upload_ignores_ssh_user good_libs "actuator:1" "10.0.0.5"
           framework0 framework1 _ _ world0 eq_refl eq_refl eq_refl).
Defined.

(** The command of an upload, written out. *)
Example upload_command_example :
  harness.upload_command "actuator:1" "/root/id_rsa" "10.0.0.5"
  = ("docker save actuator:1 | bzip2 | "
     ++ "ssh -o StrictHostKeyChecking=no -i /root/id_rsa ec2-user@10.0.0.5 "
     ++ dquote
     ++ "bunzip2 > /tmp/tempimage.bz2 && sudo docker load -i /tmp/tempimage.bz2"
     ++ dquote)%string.
Proof. reflexivity. Qed.

(** * More on the lifecycle operations *)

Section OneResource.
Context {W : Type}.
Variable f : Framework W.

Lemma ScaleSatefulSetDownToZero_func1_touches s :
  grows (fun obj =>
           touches_statefulset (StatefulSet.Namespace obj)
             (StatefulSet.Name obj) obj)
    s (snd (ScaleSatefulSetDownToZero_func1 f s)).
Proof. run_closure (ScaleSatefulSetDownToZero_func1_run f). appended. Qed.

Lemma ScaleSatefulSetDownToZero_func2_touches s :
  grows (fun obj =>
           touches_statefulset (StatefulSet.Namespace obj)
             (StatefulSet.Name obj) obj)
    s (snd (ScaleSatefulSetDownToZero_func2 f s)).
Proof. run_closure (ScaleSatefulSetDownToZero_func2_run f). appended. Qed.

Lemma ScaleDeploymentDownToZero_func1_touches s :
  grows (fun obj =>
           touches_deployment (Deployment.Namespace obj)
             (Deployment.Name obj) obj)
    s (snd (ScaleDeploymentDownToZero_func1 f s)).
Proof. run_closure (ScaleDeploymentDownToZero_func1_run f). appended. Qed.

Lemma ScaleDeploymentDownToZero_func2_touches s :
  grows (fun obj =>
           touches_deployment (Deployment.Namespace obj)
             (Deployment.Name obj) obj)
    s (snd (ScaleDeploymentDownToZero_func2 f s)).
Proof. run_closure (ScaleDeploymentDownToZero_func2_run f). appended. Qed.

(** X18.  Scale-To-Zero talks to the API about one resource only.
    Besides log lines, everything either variant puts on the trace is an
    update, in the namespace of the object it was given, of that object
    with its desired count zeroed, or a read of the object's name in that
    namespace; nothing is deleted and no other resource is named. *)
Theorem ScaleToZero_one_resource :
  (forall m : Machine (Store StatefulSet.t W),
     let obj := mem (fst m) in
     exists evs,
       trace (fst (snd (ScaleSatefulSetDownToZero f m)))
         = trace (fst m) ++ evs
       /\ Forall (touches_statefulset (StatefulSet.Namespace obj)
                    (StatefulSet.Name obj)
                    (StatefulSet.set_Spec_Replicas (Some 0) obj)) evs)
  /\ (forall m : Machine (Store Deployment.t W),
        let obj := mem (fst m) in
        exists evs,
          trace (fst (snd (ScaleDeploymentDownToZero f m)))
            = trace (fst m) ++ evs
          /\ Forall (touches_deployment (Deployment.Namespace obj)
                       (Deployment.Name obj)
                       (Deployment.set_Spec_Replicas (Some 0) obj)) evs).
Proof.
  split; intros [s t] obj; cbn [fst] in obj.
  - rewrite ScaleSatefulSetDownToZero_unfold.
    pose proof (wait_Poll_grows _ PollInterval PoolDeletionTimeout _
                  ScaleSatefulSetDownToZero_func1_touches
                  (zeroed_statefulset s, t)) as H1.
    destruct (wait.Poll _ _ _ _) as [r1 m1]. cbn [fst snd] in H1.
    assert (H2 : grows (fun obj =>
                          touches_statefulset (StatefulSet.Namespace obj)
                            (StatefulSet.Name obj) obj)
                   (zeroed_statefulset s)
                   (fst (snd (match r1 with
                              | Success =>
                                  wait.Poll PollInterval PoolDeletionTimeout
                                    (ScaleSatefulSetDownToZero_func2 f) m1
                              | _ => (r1, m1)
                              end)))).
    { destruct r1; try exact H1.
      eapply grows_trans; [exact H1|].
      apply wait_Poll_grows, ScaleSatefulSetDownToZero_func2_touches. }
    destruct H2 as [_ (evs & Ht & Hall)]. exists evs. split; assumption.
  - rewrite ScaleDeploymentDownToZero_unfold.
    pose proof (wait_Poll_grows _ PollInterval PoolDeletionTimeout _
                  ScaleDeploymentDownToZero_func1_touches
                  (zeroed_deployment s, t)) as H1.
    destruct (wait.Poll _ _ _ _) as [r1 m1]. cbn [fst snd] in H1.
    assert (H2 : grows (fun obj =>
                          touches_deployment (Deployment.Namespace obj)
                            (Deployment.Name obj) obj)
                   (zeroed_deployment s)
                   (fst (snd (match r1 with
                              | Success =>
                                  wait.Poll PollInterval PoolDeletionTimeout
                                    (ScaleDeploymentDownToZero_func2 f) m1
                              | _ => (r1, m1)
                              end)))).
    { destruct r1; try exact H1.
      eapply grows_trans; [exact H1|].
      apply wait_Poll_grows, ScaleDeploymentDownToZero_func2_touches. }
    destruct H2 as [_ (evs & Ht & Hall)]. exists evs. split; assumption.
Qed.

End OneResource.

Section CallsPerTick.
Context {Mem W : Type}.
Variables delFnc getFnc : W -> error * W.

Local Abbreviation step :=
  (fun s : Store Mem W =>
     let (r, s') := WaitUntilDeleted_func1 delFnc getFnc s in
     (wait.outcome r, s')).

Lemma count_app (p : Event -> bool) (l1 l2 : list Event) :
  count p (l1 ++ l2) = (count p l1 + count p l2)%nat.
Proof. unfold count. now rewrite filter_app, length_app. Qed.

(** One tick: one delete more, and one get more exactly when the delete
    was accepted. *)
Lemma tick_counts (s : Store Mem W) :
  let s' := snd (WaitUntilDeleted_func1 delFnc getFnc s) in
  count is_delete (trace s') = Datatypes.S (count is_delete (trace s))
  /\ (count is_get (trace s') + count is_accepted_delete (trace s)
      = count is_get (trace s) + count is_accepted_delete (trace s'))%nat.
Proof.
  rewrite WaitUntilDeleted_func1_run.
  destruct (delFnc (world s)) as [[msg|] w].
  - cbn [snd trace]. rewrite !count_app. cbn. lia.
  - destruct (getFnc w) as [gerr w2]. cbn [snd trace].
    rewrite !count_app. cbn. lia.
Qed.

Lemma after_counts (k : nat) : forall s : Store Mem W,
  count is_delete (trace (after step k s))
  = (count is_delete (trace s) + k)%nat
  /\ (count is_get (trace (after step k s))
      + count is_accepted_delete (trace s)
      = count is_get (trace s)
        + count is_accepted_delete (trace (after step k s)))%nat.
Proof.
  induction k as [|k IH]; intros s; cbn [after]; [lia|].
  pose proof (tick_counts s) as Ht. cbn zeta in Ht.
  destruct (WaitUntilDeleted_func1 delFnc getFnc s) as [r s1].
  cbn [snd] in *. specialize (IH s1). lia.
Qed.

(** X19.  [WaitUntilDeleted] issues the delete once on every tick and at
    least once, and calls get exactly as often as a delete was accepted
    (returned nil): over a whole run the number of delete calls is the
    number of ticks, and the number of get calls is the number of
    accepted deletes. *)
Theorem WaitUntilDeleted_calls_per_tick (s : Store Mem W) (t : Timer) :
  let '(_, (s', t')) := WaitUntilDeleted delFnc getFnc (s, t) in
  (List.length (ticks t) < List.length (ticks t'))%nat
  /\ (count is_delete (trace s') + List.length (ticks t)
      = count is_delete (trace s) + List.length (ticks t'))%nat
  /\ (count is_get (trace s') + count is_accepted_delete (trace s)
      = count is_get (trace s) + count is_accepted_delete (trace s'))%nat.
Proof.
  unfold WaitUntilDeleted, wait.Poll, Poller.Poll. cbn [snd].
  set (spec := {| Poller.interval := PollInterval;
                  Poller.timeout := PoolDeletionTimeout |}).
  assert (Hi : 0 < Poller.interval spec) by reflexivity.
  destruct (poll_loop_schedule spec step
              (Z.to_nat (Poller.timeout spec / Poller.interval spec))
              (now t) s t Hi) as [n Hn].
  { pose proof (fuel_enough spec Hi). lia. }
  destruct (Poller.poll_loop _ _ _ _ _) as [r [s' t']].
  destruct Hn as (Hticks & -> & _).
  rewrite Hticks, length_app. unfold boundaries.
  rewrite length_map, length_seq.
  pose proof (after_counts (Datatypes.S n) s) as [Hd Hg].
  repeat split; lia.
Qed.

End CallsPerTick.

(** * Writing a list to a JSON stream *)

Section WriteList.
Context {Stream V : Type}.
Variables WriteArrayStart WriteMore WriteArrayEnd : Stream -> Stream.
Variable writeVersionInquiryResponse : V -> Stream -> Stream.

Local Abbreviation replay :=
  (servicemgmt.replay WriteArrayStart WriteMore WriteArrayEnd
     writeVersionInquiryResponse).

Lemma write_from_later (items : list V) : forall i stream,
  servicemgmt.write_from WriteMore writeVersionInquiryResponse
    (Datatypes.S i) items stream
  = replay
      (flat_map (fun v => [servicemgmt.More; servicemgmt.Element v]) items)
      stream.
Proof.
  induction items as [|v rest IH]; intros i stream;
    cbn [servicemgmt.write_from]; [reflexivity|].
  cbn [Nat.ltb Nat.leb flat_map]. now rewrite IH.
Qed.

Lemma separated_cons (v : V) (rest : list V) :
  servicemgmt.separated (v :: rest)
  = servicemgmt.Element v
    :: flat_map (fun v => [servicemgmt.More; servicemgmt.Element v]) rest.
Proof.
  revert v. induction rest as [|v' rest IH]; intros v; [reflexivity|].
  cbn [servicemgmt.separated flat_map app] in *. now rewrite <- IH.
Qed.

(** X20.  On any stream, [writeVersionInquiryResponseList] makes these
    calls and no others: the array start, the elements in order with
    [WriteMore] between neighbours only (none before the first, none
    after the last, none at all for an empty or one-element list), and
    the array end. *)
Theorem writeVersionInquiryResponseList_separates (items : list V)
    (stream : Stream) :
  servicemgmt.writeVersionInquiryResponseList WriteArrayStart WriteMore
    WriteArrayEnd writeVersionInquiryResponse items stream
  = replay
      ([servicemgmt.ArrayStart] ++ servicemgmt.separated items
       ++ [servicemgmt.ArrayEnd])
      stream.
Proof.
  unfold servicemgmt.writeVersionInquiryResponseList, servicemgmt.replay.
  destruct items as [|v rest]; [reflexivity|].
  cbn [servicemgmt.write_from Nat.ltb Nat.leb].
  rewrite write_from_later, separated_cons. unfold servicemgmt.replay.
  cbn [app fold_left]. now rewrite fold_left_app.
Qed.

End WriteList.
